(** * cloudflare-headers-file: the [_headers] rule engine

    A shallow embedding of [headers.go] (package [headers]): the line
    parser [Parse], the rule matcher [File.Match], the composer [Flatten]
    and the helpers [hasSplat], [hasPlaceholder] and [replacedHeaders],
    together with the properties of the engine that the design document
    states.

    Go strings are byte strings; they are modelled by [string] (a list of
    8-bit [ascii] characters).  The map that [Flatten] builds is a
    [gmap string (list string)]. *)

From Stdlib Require Import Ascii String List Bool Arith Lia Permutation.
From stdpp Require Import base option list strings gmap fin_maps.

Local Open Scope bool_scope.
Local Open Scope list_scope.
#[local] Arguments String.append !_ _ / : simpl nomatch.

(* ===================================================================== *)
(** ** The parts of Go's [strings] package that the program calls *)
(* ===================================================================== *)

Module strings.

(** [strings.HasPrefix(s, prefix)] *)
Fixpoint HasPrefix (s prefix : string) {struct prefix} : bool :=
  match prefix with
  | EmptyString => true
  | String c prefix' =>
      match s with
      | EmptyString => false
      | String d s' => if Ascii.eqb c d then HasPrefix s' prefix' else false
      end
  end.

(** [s[n:]] for [n <= len(s)] *)
Fixpoint drop (n : nat) (s : string) : string :=
  match n with
  | O => s
  | S n' => match s with
            | EmptyString => EmptyString
            | String _ s' => drop n' s'
            end
  end.

(** [s[:n]] for [n <= len(s)] *)
Fixpoint take (n : nat) (s : string) : string :=
  match n with
  | O => EmptyString
  | S n' => match s with
            | EmptyString => EmptyString
            | String c s' => String c (take n' s')
            end
  end.

(** [strings.HasSuffix(s, suffix)]:
    [len(s) >= len(suffix) && s[len(s)-len(suffix):] == suffix] *)
Definition HasSuffix (s suffix : string) : bool :=
  (String.length suffix <=? String.length s)
  && String.eqb (drop (String.length s - String.length suffix) s) suffix.

(** [strings.TrimPrefix(s, prefix)] *)
Definition TrimPrefix (s prefix : string) : string :=
  if HasPrefix s prefix then drop (String.length prefix) s else s.

(** [strings.TrimSuffix(s, suffix)] *)
Definition TrimSuffix (s suffix : string) : string :=
  if HasSuffix s suffix
  then take (String.length s - String.length suffix) s
  else s.

(** [strings.Contains(s, substr)] *)
Fixpoint Contains (s substr : string) : bool :=
  HasPrefix s substr
  || match s with
     | EmptyString => false
     | String _ s' => Contains s' substr
     end.

(** [strings.Cut(s, sep)]: the text before and after the first
    occurrence of [sep], or [None] when [sep] does not occur. *)
Fixpoint Cut (s sep : string) : option (string * string) :=
  if HasPrefix s sep then Some (EmptyString, drop (String.length sep) s)
  else match s with
       | EmptyString => None
       | String c s' =>
           match Cut s' sep with
           | Some (before, after) => Some (String c before, after)
           | None => None
           end
       end.

(** [strings.SplitN(s, sep, 2)] for a non-empty [sep], the only way the
    program calls it: at most two pieces, split at the first [sep]. *)
Definition SplitN2 (s sep : string) : list string :=
  match Cut s sep with
  | Some (before, after) => [before; after]
  | None => [s]
  end.

(** [strings.Split(s, sep)] for a non-empty [sep]: every piece between
    occurrences of [sep].  Each cut removes at least one byte, so
    [String.length s] rounds are enough. *)
Fixpoint Split_rounds (rounds : nat) (s sep : string) : list string :=
  match rounds with
  | O => [s]
  | S rounds' =>
      match Cut s sep with
      | Some (before, after) => before :: Split_rounds rounds' after sep
      | None => [s]
      end
  end.

Definition Split (s sep : string) : list string :=
  Split_rounds (String.length s) s sep.

(** [strings.Replace(s, old, new, 1)]: the first occurrence of [old]
    is replaced by [new]; an empty [old] matches at the very start. *)
Fixpoint Replace1 (s old new : string) : string :=
  if HasPrefix s old then new +:+ drop (String.length old) s
  else match s with
       | EmptyString => EmptyString
       | String c s' => String c (Replace1 s' old new)
       end.

(** [strings.Join(elems, sep)] *)
Fixpoint Join (elems : list string) (sep : string) : string :=
  match elems with
  | [] => EmptyString
  | [e] => e
  | e :: rest => e +:+ sep +:+ Join rest sep
  end.

(** The UTF-8 encodings of the runes for which [unicode.IsSpace]
    holds, written with their bytes in decimal:
    U+0009..U+000D, U+0020, U+0085, U+00A0, U+1680, U+2000..U+200A,
    U+2028, U+2029, U+202F, U+205F and U+3000. *)
Definition bytes (l : list nat) : string :=
  string_of_list_ascii (List.map ascii_of_nat l).

Definition spaceRunes : list string :=
  List.map bytes
    [ [9]; [10]; [11]; [12]; [13]; [32];
      [194; 133]; [194; 160];
      [225; 154; 128];
      [226; 128; 128]; [226; 128; 129]; [226; 128; 130]; [226; 128; 131];
      [226; 128; 132]; [226; 128; 133]; [226; 128; 134]; [226; 128; 135];
      [226; 128; 136]; [226; 128; 137]; [226; 128; 138];
      [226; 128; 168]; [226; 128; 169]; [226; 128; 175];
      [226; 129; 159];
      [227; 128; 128] ].

(** The width of the white-space rune at the start (at the end) of [s],
    if there is one. *)
Definition leadingSpace (s : string) : option nat :=
  String.length <$> List.find (HasPrefix s) spaceRunes.

Definition trailingSpace (s : string) : option nat :=
  String.length <$> List.find (HasSuffix s) spaceRunes.

Fixpoint TrimLeft_rounds (rounds : nat) (s : string) : string :=
  match rounds with
  | O => s
  | S rounds' =>
      match leadingSpace s with
      | Some w => TrimLeft_rounds rounds' (drop w s)
      | None => s
      end
  end.

Fixpoint TrimRight_rounds (rounds : nat) (s : string) : string :=
  match rounds with
  | O => s
  | S rounds' =>
      match trailingSpace s with
      | Some w => TrimRight_rounds rounds' (take (String.length s - w) s)
      | None => s
      end
  end.

(** [strings.TrimSpace(s)]: all leading and trailing white space
    removed.  Each round removes at least one byte. *)
Definition TrimSpace (s : string) : string :=
  let s1 := TrimLeft_rounds (String.length s) s in
  TrimRight_rounds (String.length s1) s1.

End strings.

(* ===================================================================== *)
(** ** The three compiled regular expressions *)
(* ===================================================================== *)

Module regexp.

Definition between (lo hi : nat) (c : ascii) : bool :=
  (lo <=? nat_of_ascii c) && (nat_of_ascii c <=? hi).

(** [[0-9]], [[A-Za-z]] and [[[:word:]]] = [[0-9A-Za-z_]] *)
Definition isDigit (c : ascii) : bool := between 48 57 c.
Definition isLetter (c : ascii) : bool := between 65 90 c || between 97 122 c.
Definition isWord (c : ascii) : bool :=
  isDigit c || isLetter c || Ascii.eqb c "_".

Fixpoint takeWhile (p : ascii -> bool) (s : string) : string :=
  match s with
  | EmptyString => EmptyString
  | String c s' => if p c then String c (takeWhile p s') else EmptyString
  end.

Fixpoint all (p : ascii -> bool) (s : string) : bool :=
  match s with
  | EmptyString => true
  | String c s' => p c && all p s'
  end.

(** [placeholderMatcher.FindString(src)] for
    [placeholderMatcher = ":[A-Za-z][[:word:]]*"]: the leftmost match,
    with the greedy star taking every word character that follows;
    the empty string when nothing matches. *)
Fixpoint placeholderMatcher_FindString (src : string) : string :=
  match src with
  | EmptyString => EmptyString
  | String c rest =>
      if Ascii.eqb c ":" then
        match rest with
        | String d rest' =>
            if isLetter d
            then String c (String d (takeWhile isWord rest'))
            else placeholderMatcher_FindString rest
        | EmptyString => EmptyString
        end
      else placeholderMatcher_FindString rest
  end.

(** The lazy group [(.*?)] followed by [/]: the text up to the first
    [/]; [.] does not match a line feed. *)
Fixpoint lazyUpToSlash (s : string) : option string :=
  match s with
  | EmptyString => None
  | String c s' =>
      if Ascii.eqb c "/" then Some EmptyString
      else if Ascii.eqb c (ascii_of_nat 10) then None
      else String c <$> lazyUpToSlash s'
  end.

(** [absoluteUrlMatcher.FindStringSubmatch(s)] for
    [absoluteUrlMatcher = "^https?://(.*?)/"]: [Some] of the first
    submatch (the host), or [None] for a [nil] result. *)
Definition absoluteUrlMatcher_FindStringSubmatch (s : string)
  : option string :=
  if strings.HasPrefix s "https://" then lazyUpToSlash (strings.drop 8 s)
  else if strings.HasPrefix s "http://" then lazyUpToSlash (strings.drop 7 s)
  else None.

(** [hostPortMatcher.MatchString(host)] for
    [hostPortMatcher = ":[0-9]+$"] *)
Fixpoint hostPortMatcher_MatchString (host : string) : bool :=
  match host with
  | EmptyString => false
  | String c rest =>
      (Ascii.eqb c ":"
       && negb (String.eqb rest EmptyString) && all isDigit rest)
      || hostPortMatcher_MatchString rest
  end.

End regexp.

(* ===================================================================== *)
(** ** [net/url]: the fields and the method the program reads *)
(* ===================================================================== *)

Module url.

(** [url.URL], with the fields that the parser and the matcher touch
    and the ones a request may differ in. *)
Record URL := mkURL {
  Scheme : string;
  Host : string;      (* host or host:port *)
  Path : string;
  RawPath : string;
  RawQuery : string;
  Fragment : string
}.

Fixpoint LastIndexByte (s : string) (c : ascii) : option nat :=
  match s with
  | EmptyString => None
  | String d s' =>
      match LastIndexByte s' c with
      | Some i => Some (S i)
      | None => if Ascii.eqb d c then Some 0 else None
      end
  end.

(** [validOptionalPort(port)]: empty, or [:] followed by digits only *)
Definition validOptionalPort (port : string) : bool :=
  match port with
  | EmptyString => true
  | String c rest => Ascii.eqb c ":" && regexp.all regexp.isDigit rest
  end.

(** [splitHostPort(hostPort)], the host half *)
Definition splitHostPort_host (hostPort : string) : string :=
  let host :=
    match LastIndexByte hostPort ":" with
    | Some colon =>
        if validOptionalPort (strings.drop colon hostPort)
        then strings.take colon hostPort
        else hostPort
    | None => hostPort
    end in
  if strings.HasPrefix host "[" && strings.HasSuffix host "]"
  then strings.take (String.length host - 2) (strings.drop 1 host)
  else host.

(** [u.Hostname()]: [u.Host] without a valid port and without the
    square brackets of an IPv6 literal. *)
Definition Hostname (u : URL) : string := splitHostPort_host (Host u).

End url.

Import url.

(* ===================================================================== *)
(** ** The data model of [headers.go] *)
(* ===================================================================== *)

(** [type Header struct] *)
Record Header := mkHeader {
  Name : string;
  Value : string;
  Detach : bool
}.

(** [type Rule struct] *)
Record Rule := mkRule {
  Pattern : URL;
  Headers : list Header
}.

(** [type File []Rule] *)
Definition File := list Rule.

(* ===================================================================== *)
(** ** The pattern matcher *)
(* ===================================================================== *)

(** [func hasPlaceholder(src, in, disallowed string) (bool, string, string)] *)
Definition hasPlaceholder (src in_ disallowed : string)
  : bool * string * string :=
  let placeholder := regexp.placeholderMatcher_FindString src in
  if negb (String.eqb placeholder EmptyString) then
    let chunks := strings.SplitN2 src placeholder in
    let chunks0 := nth 0 chunks EmptyString in
    let chunks1 := nth 1 chunks EmptyString in
    if strings.HasPrefix in_ chunks0 && strings.HasSuffix in_ chunks1 then
      let replacement :=
        strings.TrimPrefix (strings.TrimSuffix in_ chunks1) chunks0 in
      if negb (strings.Contains replacement disallowed)
      then (true, placeholder, replacement)
      else (false, EmptyString, EmptyString)
    else (false, EmptyString, EmptyString)
  else (false, EmptyString, EmptyString).

(** [func hasSplat(src, in, disallowed string) (bool, string)] *)
Definition hasSplat (src in_ disallowed : string) : bool * string :=
  if strings.Contains src "*" then
    let chunks := strings.Split src "*" in
    let chunks0 := nth 0 chunks EmptyString in
    let chunks1 := nth 1 chunks EmptyString in
    if strings.HasPrefix in_ chunks0 && strings.HasSuffix in_ chunks1 then
      let replacing :=
        strings.TrimPrefix (strings.TrimSuffix in_ chunks1) chunks0 in
      if negb (strings.Contains replacing disallowed)
      then (true, replacing)
      else (false, EmptyString)
    else (false, EmptyString)
  else (false, EmptyString).

(** [func replacedHeaders(headers []Header, placeholder, replacement string)]:
    the loop appends one rewritten header per input header. *)
Definition replacedHeaders (headers : list Header)
    (placeholder replacement : string) : list Header :=
  fold_left
    (fun out header =>
       out ++ [ {| Name := Name header;
                   Value := strings.Replace1 (Value header)
                              placeholder replacement;
                   Detach := Detach header |} ])
    headers [].

(* ===================================================================== *)
(** ** The composer *)
(* ===================================================================== *)

(** One round of the first loop of [Flatten] on the map [headersOut].
    Reading a missing key of a Go map gives the zero value, the empty
    slice. *)
Definition Flatten_step (headersOut : gmap string (list string))
    (header : Header) : gmap string (list string) :=
  if Detach header then delete (Name header) headersOut
  else
    let headersOut1 :=
      match headersOut !! Name header with
      | Some _ => headersOut
      | None => <[Name header := []]> headersOut
      end in
    <[Name header :=
        default [] (headersOut1 !! Name header) ++ [Value header]]>
      headersOut1.

(** The map [headersOut] when the first loop of [Flatten] ends. *)
Definition Flatten_map (headers : list Header) : gmap string (list string) :=
  fold_left Flatten_step headers empty.

(** [fmt.Sprintf("%s: %s", name, strings.Join(values, ","))] *)
Definition Flatten_line (entry : string * list string) : string :=
  fst entry +:+ ": " +:+ strings.Join (snd entry) ",".

(** [func Flatten(headers []Header) []string].  The second loop ranges
    over a Go map, whose iteration order is not specified: [Flatten]
    lists the lines in the order of [map_to_list], and
    [Flatten_returns headers out] holds for every order in which Go may
    return them. *)
Definition Flatten (headers : list Header) : list string :=
  List.map Flatten_line (map_to_list (Flatten_map headers)).

Definition Flatten_returns (headers : list Header) (out : list string) : Prop :=
  Permutation out (Flatten headers).

(* ===================================================================== *)
(** ** [File.Match] *)
(* ===================================================================== *)

(** The body of the loop of [Match]: the header stack after the rule
    [mapping] has been tried against the request [in_]. *)
Definition Match_body (in_ : URL) (headerStack : list Header)
    (mapping : Rule) : list Header :=
  let hostname := Hostname in_ in
  if negb (String.eqb (Host (Pattern mapping)) EmptyString) then
    match hasSplat (Host (Pattern mapping)) hostname "." with
    | (true, replacement) =>
        headerStack ++ replacedHeaders (Headers mapping) ":splat" replacement
    | (false, _) =>
        match hasPlaceholder (Host (Pattern mapping)) hostname "." with
        | (true, pattern, replacement) =>
            headerStack
              ++ replacedHeaders (Headers mapping) pattern replacement
        | (false, _, _) =>
            if String.eqb (Host (Pattern mapping)) hostname
            then headerStack ++ Headers mapping
            else headerStack
        end
    end
  else
    match hasSplat (Path (Pattern mapping)) (Path in_) "/" with
    | (true, replacement) =>
        headerStack ++ replacedHeaders (Headers mapping) ":splat" replacement
    | (false, _) =>
        match hasPlaceholder (Path (Pattern mapping)) (Path in_) "/" with
        | (true, placeholder, replacement) =>
            headerStack
              ++ replacedHeaders (Headers mapping) placeholder replacement
        | (false, _, _) =>
            if String.eqb (Path (Pattern mapping)) (Path in_)
            then headerStack ++ Headers mapping
            else headerStack
        end
    end.

(** [headerStack] when the loop of [Match] ends. *)
Definition Match_stack (h : File) (in_ : URL) : list Header :=
  fold_left (Match_body in_) h [].

(** [func (h File) Match(in url.URL) []string] *)
Definition Match (h : File) (in_ : URL) : list string :=
  Flatten (Match_stack h in_).

Definition Match_returns (h : File) (in_ : URL) (out : list string) : Prop :=
  Flatten_returns (Match_stack h in_) out.

(* ===================================================================== *)
(** ** [Parse] *)
(* ===================================================================== *)

(** The errors that [Parse] returns, one constructor per [return nil, ...]
    of the source. *)
Inductive error :=
| HeaderWithoutPattern (line : string)  (* "header without pattern: %q" *)
| InvalidHeader (line : string)         (* "invalid header: %q" *)
| InvalidPort (trimmed : string)        (* "invalid port in rule: %q" *)
| InvalidScheme (scheme : string)       (* "invalid scheme: %q" *)
| UrlError (msg : string)               (* the error of [url.Parse] *)
| ScannerError (msg : string).          (* [scanner.Err()] *)

Inductive result (A : Type) :=
| Ok (a : A)
| Err (e : error).
Arguments Ok {A} a.
Arguments Err {A} e.

(** The input as [bufio.Scanner] hands it to the loop: the lines that
    [scanner.Text()] yields, and what [scanner.Err()] reports once
    [scanner.Scan()] has returned false. *)
Record Reader := mkReader {
  scanned : list string;
  scanErr : option string
}.

(** The three variables that the loop of [Parse] updates. *)
Record ParseState := mkParseState {
  hmap : File;
  pattern : option URL;
  headers : list Header
}.

(** [s[0] == c], false on the empty string *)
Definition firstByteIs (s : string) (c : ascii) : bool :=
  match s with
  | EmptyString => false
  | String d _ => Ascii.eqb d c
  end.

Definition withHost (u : URL) (host : string) : URL :=
  {| Scheme := Scheme u; Host := host; Path := Path u;
     RawPath := RawPath u; RawQuery := RawQuery u; Fragment := Fragment u |}.

(** The body of the loop of [Parse] for one line.  [url_Parse] stands
    for [url.Parse] of the Go library: [inl] of the parsed reference or
    [inr] of its error. *)
Definition Parse_line (url_Parse : string -> URL + string)
    (st : ParseState) (line : string) : result ParseState :=
  let trimmed := strings.TrimSpace line in
  if String.eqb trimmed EmptyString || firstByteIs trimmed "#" then Ok st
  else if firstByteIs line (ascii_of_nat 9) || firstByteIs line " " then
    match pattern st with
    | None => Err (HeaderWithoutPattern line)
    | Some _ =>
        if firstByteIs trimmed "!" then
          Ok {| hmap := hmap st; pattern := pattern st;
                headers := headers st
                  ++ [ {| Name := strings.TrimSpace (strings.drop 1 trimmed);
                          Value := EmptyString;
                          Detach := true |} ] |}
        else
          match strings.SplitN2 trimmed ":" with
          | [parts0; parts1] =>
              Ok {| hmap := hmap st; pattern := pattern st;
                    headers := headers st
                      ++ [ {| Name := parts0;
                              Value := strings.TrimSpace parts1;
                              Detach := false |} ] |}
          | _ => Err (InvalidHeader line)
          end
    end
  else
    let hmap1 :=
      match pattern st with
      | Some p => hmap st ++ [ {| Pattern := p; Headers := headers st |} ]
      | None => hmap st
      end in
    let parsed : result URL :=
      match regexp.absoluteUrlMatcher_FindStringSubmatch trimmed with
      | Some host =>
          if regexp.hostPortMatcher_MatchString host
          then Err (InvalidPort trimmed)
          else
            match url_Parse (strings.Replace1 trimmed host "PLACEHOLDER") with
            | inr msg => Err (UrlError msg)
            | inl u => Ok (withHost u host)
            end
      | None =>
          match url_Parse trimmed with
          | inr msg => Err (UrlError msg)
          | inl u => Ok u
          end
      end in
    match parsed with
    | Err e => Err e
    | Ok p =>
        if negb (String.eqb (Scheme p) EmptyString)
           && negb (String.eqb (Scheme p) "https")
        then Err (InvalidScheme (Scheme p))
        else Ok {| hmap := hmap1; pattern := Some p; headers := [] |}
    end.

(** The loop of [Parse]: it stops at the first error. *)
Fixpoint Parse_loop (url_Parse : string -> URL + string)
    (st : ParseState) (lines : list string) : result ParseState :=
  match lines with
  | [] => Ok st
  | line :: rest =>
      match Parse_line url_Parse st line with
      | Ok st' => Parse_loop url_Parse st' rest
      | Err e => Err e
      end
  end.

(** [func Parse(in io.Reader)], which returns the [File] or an error *)
Definition Parse (url_Parse : string -> URL + string) (in_ : Reader)
  : result File :=
  match Parse_loop url_Parse
          {| hmap := []; pattern := None; headers := [] |} (scanned in_) with
  | Err e => Err e
  | Ok st =>
      match scanErr in_ with
      | Some msg => Err (ScannerError msg)
      | None =>
          match pattern st with
          | Some p => Ok (hmap st ++ [ {| Pattern := p; Headers := headers st |} ])
          | None => Ok (hmap st)
          end
      end
  end.

(** Whether a result of [Parse] is the invalid-port error. *)
Definition isInvalidPort {A : Type} (r : result A) : bool :=
  match r with
  | Err (InvalidPort _) => true
  | _ => false
  end.

(* ===================================================================== *)
(** ** Vocabulary of the statements *)
(* ===================================================================== *)

(** [s] reads [before], then [tok], then [after], and no occurrence of
    [tok] in [s] starts further to the left. *)
Definition firstOccurrence (s tok before after : string) : Prop :=
  s = before +:+ tok +:+ after
  /\ forall before' after',
       s = before' +:+ tok +:+ after' ->
       String.length before <= String.length before'.

(** A header whose value has had [tok] replaced once by [capture]. *)
Definition substituted (tok capture : string) (header : Header) : Header :=
  {| Name := Name header;
     Value := strings.Replace1 (Value header) tok capture;
     Detach := Detach header |}.

(** The pieces of a pattern fragment around its first [*], as [hasSplat]
    takes them, and what it captures from an input. *)
Definition splatCapture (src in_ : string) : string :=
  let chunks := strings.Split src "*" in
  strings.TrimPrefix
    (strings.TrimSuffix in_ (nth 1 chunks EmptyString))
    (nth 0 chunks EmptyString).

(** The same around the placeholder token of [hasPlaceholder]. *)
Definition placeholderCapture (src in_ : string) : string :=
  let chunks :=
    strings.SplitN2 src (regexp.placeholderMatcher_FindString src) in
  strings.TrimPrefix
    (strings.TrimSuffix in_ (nth 1 chunks EmptyString))
    (nth 0 chunks EmptyString).

(** What [Match] tests for a rule: the host of the pattern against the
    host name of the request with delimiter [.] when the pattern has a
    host, the two paths with delimiter [/] otherwise. *)
Definition patternFragment (mapping : Rule) : string :=
  if String.eqb (Host (Pattern mapping)) EmptyString
  then Path (Pattern mapping) else Host (Pattern mapping).

Definition requestFragment (mapping : Rule) (in_ : URL) : string :=
  if String.eqb (Host (Pattern mapping)) EmptyString
  then Path in_ else Hostname in_.

Definition delimiter (mapping : Rule) : string :=
  if String.eqb (Host (Pattern mapping)) EmptyString then "/" else ".".

(** The three mechanisms in their order, the first that succeeds giving
    the headers that a rule adds. *)
Definition firstMechanism (src in_ disallowed : string)
    (hs : list Header) : list Header :=
  if fst (hasSplat src in_ disallowed)
  then List.map (substituted ":splat" (snd (hasSplat src in_ disallowed))) hs
  else if fst (fst (hasPlaceholder src in_ disallowed))
  then List.map (substituted (snd (fst (hasPlaceholder src in_ disallowed)))
                             (snd (hasPlaceholder src in_ disallowed))) hs
  else if String.eqb src in_ then hs
  else [].

(** What one rule adds to the stack of a request. *)
Definition contribution (in_ : URL) (mapping : Rule) : list Header :=
  Match_body in_ [] mapping.

(** The values of the entries of a stack that add to the name [n], in
    stack order; whether a stack has no detach entry for [n]. *)
Definition adds (n : string) (header : Header) : bool :=
  negb (Detach header) && String.eqb (Name header) n.

Definition detaches (n : string) (header : Header) : bool :=
  Detach header && String.eqb (Name header) n.

Definition values_of (n : string) (stack : list Header) : list string :=
  List.map Value (List.filter (adds n) stack).

Definition noDetach (n : string) (stack : list Header) : bool :=
  forallb (fun header => negb (detaches n header)) stack.

(** The value list of one name as the first loop of [Flatten] carries
    it from entry to entry. *)
Definition step_at (n : string) (acc : option (list string))
    (header : Header) : option (list string) :=
  if String.eqb (Name header) n then
    if Detach header then None
    else Some (default [] acc ++ [Value header])
  else acc.

(** The lines of the output of [Flatten] that come from the map entry of
    the name [n]. *)
Definition Flatten_lines_for (n : string) (stack : list Header)
  : list string :=
  List.map Flatten_line
    (List.filter (fun entry => String.eqb (fst entry) n)
       (map_to_list (Flatten_map stack))).

(** Shorthands for the examples. *)
Definition hdr (n v : string) : Header :=
  {| Name := n; Value := v; Detach := false |}.
Definition detach (n : string) : Header :=
  {| Name := n; Value := EmptyString; Detach := true |}.
Definition pathRule (p : string) (hs : list Header) : Rule :=
  {| Pattern := mkURL EmptyString EmptyString p EmptyString
                  EmptyString EmptyString;
     Headers := hs |}.
Definition hostRule (h p : string) (hs : list Header) : Rule :=
  {| Pattern := mkURL "https" h p EmptyString EmptyString EmptyString;
     Headers := hs |}.
Definition request (scheme host path : string) : URL :=
  mkURL scheme host path EmptyString EmptyString EmptyString.

(** An instance of the library parser for the examples: it reads every
    reference as a bare path. *)
Definition pathOnly (ref : string) : URL + string :=
  inl (mkURL EmptyString EmptyString ref EmptyString EmptyString EmptyString).

(** What [url.Parse] of the Go library returns for
    [https://myproject.pages.dev:1234]: the scheme and the host with its
    port, and an empty path. *)
Definition portURL : URL :=
  mkURL "https" "myproject.pages.dev:1234" EmptyString EmptyString
    EmptyString EmptyString.

(** The three kinds of line that the loop of [Parse] tells apart: a
    line it skips (blank or comment after trimming), an indented line (a
    header directive), and any other line (a pattern line). *)
Definition isSkipped (line : string) : bool :=
  String.eqb (strings.TrimSpace line) EmptyString
  || firstByteIs (strings.TrimSpace line) "#".

Definition isIndented (line : string) : bool :=
  firstByteIs line (ascii_of_nat 9) || firstByteIs line " ".

Definition isPatternLine (line : string) : bool :=
  negb (isSkipped line) && negb (isIndented line).

(** A scheme that [Parse] lets through: none, or [https]. *)
Definition acceptedScheme (u : URL) : Prop :=
  Scheme u = EmptyString \/ Scheme u = "https"%string.

(** A byte that [.] of the absolute-URL expression takes into the host:
    neither [/], where the lazy group stops, nor a line feed. *)
Definition hostByte (c : ascii) : bool :=
  negb (Ascii.eqb c "/") && negb (Ascii.eqb c (ascii_of_nat 10)).

(** The entries of a stack behind its last detach entry for the name
    [n]; the whole stack when it has none. *)
Fixpoint afterLastDetach (n : string) (stack : list Header) : list Header :=
  match stack with
  | [] => []
  | x :: rest =>
      if noDetach n rest
      then (if detaches n x then rest else x :: rest)
      else afterLastDetach n rest
  end.

(** The file once the rule that is open, if any, is appended to it, as
    a pattern line and the end of the input do. *)
Definition closeRule (st : ParseState) : File :=
  match pattern st with
  | Some p => hmap st ++ [ {| Pattern := p; Headers := headers st |} ]
  | None => hmap st
  end.

(** A header that is a detach directive or has no colon in its name. *)
Definition nameWithoutColon (header : Header) : Prop :=
  Detach header = true \/ strings.Contains (Name header) ":" = false.

(** A parser state in which every pattern has an accepted scheme and
    every header satisfies [nameWithoutColon]. *)
Definition wellFormed (st : ParseState) : Prop :=
  Forall (fun r => acceptedScheme (Pattern r)
                   /\ Forall nameWithoutColon (Headers r)) (hmap st)
  /\ (forall p, pattern st = Some p -> acceptedScheme p)
  /\ Forall nameWithoutColon (headers st).

(** A parser state for the examples, with the rule [/a] open. *)
Definition openRule : ParseState :=
  {| hmap := [];
     pattern := Some (mkURL EmptyString EmptyString "/a" EmptyString
                        EmptyString EmptyString);
     headers := [] |}.

(* ===================================================================== *)
(** ** Strings: prefixes, occurrences and single replacement *)
(* ===================================================================== *)

Lemma length_append (a b : string) :
  String.length (a +:+ b) = String.length a + String.length b.
Proof. induction a as [|c a IH]; simpl; [reflexivity | now rewrite IH]. Qed.

Lemma HasPrefix_append (p r : string) : strings.HasPrefix (p +:+ r) p = true.
Proof.
  induction p as [|c p IH]; simpl; [reflexivity |].
  now rewrite Ascii.eqb_refl.
Qed.

Lemma drop_append (p r : string) : strings.drop (String.length p) (p +:+ r) = r.
Proof. induction p as [|c p IH]; simpl; [reflexivity | exact IH]. Qed.

Lemma HasPrefix_inv (s p : string) :
  strings.HasPrefix s p = true -> s = p +:+ strings.drop (String.length p) s.
Proof.
  revert s; induction p as [|c p IH]; intros s H; simpl in *; [reflexivity |].
  destruct s as [|d s]; [discriminate |].
  destruct (Ascii.eqb c d) eqn:E; [| discriminate].
  apply Ascii.eqb_eq in E; subst d. f_equal. now apply IH.
Qed.

(** [Replace1] rewrites exactly the first occurrence: what precedes it
    and what follows it, later occurrences included, stay as they are. *)
Lemma Replace1_first (s tok new before after : string) :
  firstOccurrence s tok before after ->
  strings.Replace1 s tok new = before +:+ new +:+ after.
Proof.
  revert before; induction s as [|c s IH]; intros before [Heq Hmin].
  - simpl. destruct (strings.HasPrefix "" tok) eqn:P.
    + apply HasPrefix_inv in P.
      destruct before; [| discriminate]. simpl in Heq |- *.
      destruct tok; [| discriminate]. simpl in *. now subst.
    + destruct before; [| discriminate]. destruct tok; discriminate.
  - simpl. destruct (strings.HasPrefix (String c s) tok) eqn:P.
    + apply HasPrefix_inv in P.
      specialize (Hmin EmptyString _ P). simpl in Hmin.
      destruct before; [| simpl in Hmin; lia]. simpl in *.
      rewrite Heq at 1. now rewrite drop_append.
    + destruct before as [|d before].
      * simpl in Heq. rewrite Heq, HasPrefix_append in P. discriminate.
      * simpl in Heq. injection Heq as Hc Heq. subst d. simpl. f_equal.
        apply IH. split; [exact Heq |].
        intros b' a' E. specialize (Hmin (String c b') a').
        simpl in Hmin. rewrite E in Hmin. specialize (Hmin eq_refl). lia.
Qed.

Lemma Contains_false_no_prefix (s tok : string) :
  strings.Contains s tok = false -> strings.HasPrefix s tok = false.
Proof. destruct s; simpl; intros H; now apply orb_false_iff in H. Qed.

(** Without an occurrence of the token, [Replace1] changes nothing. *)
Lemma Replace1_absent (s tok new : string) :
  strings.Contains s tok = false -> strings.Replace1 s tok new = s.
Proof.
  induction s as [|c s IH]; intros H.
  - simpl in *. rewrite orb_false_r in H. now rewrite H.
  - pose proof (Contains_false_no_prefix _ _ H) as P.
    simpl in H |- *. simpl in P. rewrite P in H |- *. simpl in H.
    f_equal. now apply IH.
Qed.

(* ===================================================================== *)
(** ** The loop of [Match], rule by rule *)
(* ===================================================================== *)

Lemma fold_left_snoc {A B : Type} (f : A -> B) (l : list A) (acc : list B) :
  fold_left (fun out x => out ++ [f x]) l acc = acc ++ List.map f l.
Proof.
  revert acc; induction l as [|x l IH]; intros acc; simpl.
  - now rewrite app_nil_r.
  - rewrite IH, <- app_assoc. reflexivity.
Qed.

Lemma replacedHeaders_map (hs : list Header) (tok capture : string) :
  replacedHeaders hs tok capture = List.map (substituted tok capture) hs.
Proof. unfold replacedHeaders. now rewrite fold_left_snoc. Qed.

(** The body of the loop appends to the stack what the first successful
    mechanism gives on the tested fragment. *)
Lemma Match_body_firstMechanism (in_ : URL) (stack : list Header) (r : Rule) :
  Match_body in_ stack r =
  stack ++ firstMechanism (patternFragment r) (requestFragment r in_)
             (delimiter r) (Headers r).
Proof.
  unfold Match_body, patternFragment, requestFragment, delimiter,
    firstMechanism.
  destruct (String.eqb (Host (Pattern r)) "") eqn:Hhost; simpl.
  - destruct (hasSplat (Path (Pattern r)) (Path in_) "/") as [[|] rep]; simpl.
    + now rewrite replacedHeaders_map.
    + destruct (hasPlaceholder (Path (Pattern r)) (Path in_) "/")
        as [[[|] tok] cap]; simpl.
      * now rewrite replacedHeaders_map.
      * destruct (String.eqb (Path (Pattern r)) (Path in_));
          [reflexivity | now rewrite app_nil_r].
  - destruct (hasSplat (Host (Pattern r)) (Hostname in_) ".") as [[|] rep];
      simpl.
    + now rewrite replacedHeaders_map.
    + destruct (hasPlaceholder (Host (Pattern r)) (Hostname in_) ".")
        as [[[|] tok] cap]; simpl.
      * now rewrite replacedHeaders_map.
      * destruct (String.eqb (Host (Pattern r)) (Hostname in_));
          [reflexivity | now rewrite app_nil_r].
Qed.

Lemma Match_body_contribution (in_ : URL) (stack : list Header) (r : Rule) :
  Match_body in_ stack r = stack ++ contribution in_ r.
Proof.
  unfold contribution. now rewrite (Match_body_firstMechanism in_ stack r),
    (Match_body_firstMechanism in_ [] r).
Qed.

Lemma Match_loop_flat_map (in_ : URL) (h : File) (stack : list Header) :
  fold_left (Match_body in_) h stack = stack ++ flat_map (contribution in_) h.
Proof.
  revert stack; induction h as [|r h IH]; intros stack; simpl.
  - now rewrite app_nil_r.
  - rewrite IH, Match_body_contribution, <- app_assoc. reflexivity.
Qed.

Lemma Match_stack_flat_map (h : File) (in_ : URL) :
  Match_stack h in_ = flat_map (contribution in_) h.
Proof. unfold Match_stack. now rewrite Match_loop_flat_map. Qed.

Lemma firstMechanism_length (src in_ d : string) (hs : list Header) :
  length (firstMechanism src in_ d hs) = 0
  \/ length (firstMechanism src in_ d hs) = length hs.
Proof.
  unfold firstMechanism.
  destruct (fst (hasSplat src in_ d)); [right; apply length_map |].
  destruct (fst (fst (hasPlaceholder src in_ d))); [right; apply length_map |].
  destruct (String.eqb src in_); [now right | now left].
Qed.

(* ===================================================================== *)
(** ** The map of [Flatten], name by name *)
(* ===================================================================== *)

Lemma lookup_Flatten_step (m : gmap string (list string)) (header : Header)
    (n : string) :
  Flatten_step m header !! n = step_at n (m !! n) header.
Proof.
  unfold Flatten_step, step_at.
  destruct (String.eqb_spec (Name header) n) as [E|E].
  - subst n. destruct (Detach header).
    + apply lookup_delete_eq.
    + rewrite lookup_insert_eq. destruct (m !! Name header) eqn:L.
      * now rewrite L.
      * now rewrite lookup_insert_eq.
  - destruct (Detach header).
    + now apply lookup_delete_ne.
    + rewrite lookup_insert_ne by exact E.
      destruct (m !! Name header); [reflexivity |].
      now apply lookup_insert_ne.
Qed.

Lemma lookup_Flatten_loop (stack : list Header)
    (m : gmap string (list string)) (n : string) :
  fold_left Flatten_step stack m !! n = fold_left (step_at n) stack (m !! n).
Proof.
  revert m; induction stack as [|x stack IH]; intros m; simpl;
    [reflexivity |].
  now rewrite IH, lookup_Flatten_step.
Qed.

Lemma lookup_Flatten_map (stack : list Header) (n : string) :
  Flatten_map stack !! n = fold_left (step_at n) stack None.
Proof. unfold Flatten_map. now rewrite lookup_Flatten_loop, lookup_empty. Qed.

(** Entries of other names do not move the value list of [n]. *)
Lemma step_at_other (n : string) (acc : option (list string)) (x : Header) :
  Name x <> n -> step_at n acc x = acc.
Proof.
  intros H. unfold step_at.
  destruct (String.eqb_spec (Name x) n); [contradiction | reflexivity].
Qed.

(** Without a detach entry for [n], the values for [n] pile up in stack
    order behind what was there. *)
Lemma step_at_accumulates (n : string) (stack : list Header)
    (acc : option (list string)) :
  noDetach n stack = true ->
  fold_left (step_at n) stack acc =
  match values_of n stack with
  | [] => acc
  | vs => Some (default [] acc ++ vs)
  end.
Proof.
  revert acc; induction stack as [|x stack IH]; intros acc Hnd;
    [reflexivity |].
  simpl in Hnd. apply andb_true_iff in Hnd as [Hx Hnd].
  simpl. rewrite (IH _ Hnd). unfold values_of, step_at, adds, detaches in *.
  simpl. destruct (String.eqb (Name x) n), (Detach x); simpl in *;
    try discriminate; try reflexivity.
  destruct (List.map Value (List.filter _ stack)) as [|v vs].
  - reflexivity.
  - now rewrite <- app_assoc.
Qed.

(** The entries of the name [n] in the list of a map: one if the map has
    the key, none otherwise. *)
Lemma filter_key_map_to_list (m : gmap string (list string)) (n : string) :
  List.filter (fun entry => String.eqb (fst entry) n) (map_to_list m) =
  match m !! n with
  | Some vs => [(n, vs)]
  | None => []
  end.
Proof.
  pose proof (NoDup_fst_map_to_list m) as Hnd.
  assert (Hin : forall vs, (n, vs) ∈ map_to_list m <-> m !! n = Some vs)
    by (intros vs; apply elem_of_map_to_list).
  revert Hnd Hin. generalize (map_to_list m) as l. generalize (m !! n) as o.
  intros o l; revert o; induction l as [|[k v] l IH]; intros o Hnd Hin.
  - destruct o as [vs|]; [| reflexivity].
    exfalso.
    pose proof (proj2 (Hin vs) eq_refl) as Hmem. now apply elem_of_nil in Hmem.
  - simpl in Hnd. apply NoDup_cons in Hnd as [Hk Hnd]. simpl.
    destruct (String.eqb_spec k n) as [E|E].
    + subst k. assert (Ho : o = Some v) by (apply Hin; left).
      subst o. f_equal.
      rewrite (IH None Hnd); [reflexivity |].
      intros vs; split; [| discriminate].
      intros Hmem. exfalso. apply Hk.
      apply list_elem_of_fmap. exists (n, vs). now split.
    + apply IH; [exact Hnd |].
      intros vs. rewrite <- Hin. split; [now right |].
      intros Hmem. apply elem_of_cons in Hmem as [Heq | Hmem];
        [congruence | exact Hmem].
Qed.

Lemma Flatten_lines_for_lookup (n : string) (stack : list Header) :
  Flatten_lines_for n stack =
  match Flatten_map stack !! n with
  | Some vs => [Flatten_line (n, vs)]
  | None => []
  end.
Proof.
  unfold Flatten_lines_for. rewrite filter_key_map_to_list.
  now destruct (Flatten_map stack !! n).
Qed.

(** A line is in the output exactly when it renders an entry of the map. *)
Lemma In_Flatten (stack : list Header) (n : string) (vs : list string) :
  Flatten_map stack !! n = Some vs -> In (Flatten_line (n, vs)) (Flatten stack).
Proof.
  intros H. unfold Flatten. apply in_map.
  apply list_elem_of_In. now apply elem_of_map_to_list.
Qed.

(* ===================================================================== *)
(** ** The two matchers and what they capture *)
(* ===================================================================== *)

Lemma Cut_Contains (s sep : string) :
  strings.Contains s sep = true -> exists before after,
    strings.Cut s sep = Some (before, after)
    /\ String.length after + String.length sep <= String.length s.
Proof.
  induction s as [|c s IH]; intros H; simpl in H |- *.
  - rewrite orb_false_r in H. rewrite H. eexists _, _. split; [reflexivity |].
    apply HasPrefix_inv in H. destruct sep; [simpl; lia | discriminate].
  - destruct (strings.HasPrefix (String c s) sep) eqn:P.
    + eexists _, _. split; [reflexivity |].
      apply HasPrefix_inv in P. apply (f_equal String.length) in P.
      rewrite length_append in P.
      change (String.length (String c s)) with (S (String.length s)) in P.
      lia.
    + simpl in H. destruct (IH H) as (b & a & -> & Hlen).
      eexists _, _. split; [reflexivity |]. simpl. lia.
Qed.

(** A pattern that contains [*] splits into at least two pieces, so that
    [chunks[1]] of [hasSplat] is always there. *)
Lemma Split_splat_two_pieces (src : string) :
  strings.Contains src "*" = true -> 2 <= length (strings.Split src "*").
Proof.
  intros H. unfold strings.Split.
  destruct (Cut_Contains _ _ H) as (b & a & Hcut & Hlen). simpl in Hlen.
  destruct (String.length src) as [|n]; [lia |].
  simpl. rewrite Hcut. simpl.
  destruct n; simpl; [lia |]. destruct (strings.Cut a "*") as [[? ?]|]; simpl; lia.
Qed.

Lemma HasPrefix_takeWhile (p : ascii -> bool) (s : string) :
  strings.HasPrefix s (regexp.takeWhile p s) = true.
Proof.
  induction s as [|c s IH]; simpl; [reflexivity |].
  destruct (p c); simpl; [| reflexivity]. now rewrite Ascii.eqb_refl.
Qed.

Lemma placeholder_occurs (src : string) :
  regexp.placeholderMatcher_FindString src <> EmptyString ->
  strings.Contains src (regexp.placeholderMatcher_FindString src) = true.
Proof.
  induction src as [|c rest IH]; intros H; [now contradiction H |].
  assert (Skip : regexp.placeholderMatcher_FindString rest <> EmptyString ->
            strings.Contains (String c rest)
              (regexp.placeholderMatcher_FindString rest) = true).
  { intros Hr. change (strings.Contains (String c rest) ?t)
      with (strings.HasPrefix (String c rest) t || strings.Contains rest t).
    rewrite (IH Hr). apply orb_true_r. }
  cbn [regexp.placeholderMatcher_FindString] in H |- *.
  destruct (Ascii.eqb c ":"); [| now apply Skip].
  destruct rest as [|d rest']; [now contradiction H |].
  destruct (regexp.isLetter d); [| now apply Skip].
  cbn [strings.Contains strings.HasPrefix].
  now rewrite !Ascii.eqb_refl, HasPrefix_takeWhile.
Qed.

(** A pattern with a placeholder token splits into two pieces around it,
    so that [chunks[1]] of [hasPlaceholder] is always there. *)
Lemma SplitN2_placeholder_two_pieces (src : string) :
  regexp.placeholderMatcher_FindString src <> EmptyString ->
  length (strings.SplitN2 src (regexp.placeholderMatcher_FindString src)) = 2.
Proof.
  intros H. unfold strings.SplitN2.
  destruct (Cut_Contains _ _ (placeholder_occurs src H)) as (b & a & -> & _).
  reflexivity.
Qed.

Lemma hasSplat_unfold (src in_ d : string) :
  hasSplat src in_ d =
  if strings.Contains src "*"
     && (strings.HasPrefix in_ (nth 0 (strings.Split src "*") EmptyString)
         && strings.HasSuffix in_ (nth 1 (strings.Split src "*") EmptyString))
     && negb (strings.Contains (splatCapture src in_) d)
  then (true, splatCapture src in_)
  else (false, EmptyString).
Proof.
  unfold hasSplat, splatCapture.
  destruct (strings.Contains src "*"); [| reflexivity]. simpl.
  destruct (_ && _); [| reflexivity]. simpl.
  now destruct (negb _).
Qed.

Lemma hasPlaceholder_unfold (src in_ d : string) :
  let tok := regexp.placeholderMatcher_FindString src in
  hasPlaceholder src in_ d =
  if negb (String.eqb tok EmptyString)
     && (strings.HasPrefix in_ (nth 0 (strings.SplitN2 src tok) EmptyString)
         && strings.HasSuffix in_ (nth 1 (strings.SplitN2 src tok) EmptyString))
     && negb (strings.Contains (placeholderCapture src in_) d)
  then (true, tok, placeholderCapture src in_)
  else (false, EmptyString, EmptyString).
Proof.
  unfold hasPlaceholder, placeholderCapture. simpl.
  destruct (negb (String.eqb _ _)); [| reflexivity]. simpl.
  destruct (_ && _); [| reflexivity]. simpl.
  now destruct (negb _).
Qed.

Lemma substituted_first (tok capture : string) (header : Header)
    (before after : string) :
  firstOccurrence (Value header) tok before after ->
  Value (substituted tok capture header) = before +:+ capture +:+ after.
Proof. intros H. simpl. now apply Replace1_first. Qed.

Lemma substituted_absent (tok capture : string) (header : Header) :
  strings.Contains (Value header) tok = false ->
  substituted tok capture header = header.
Proof.
  intros H. unfold substituted. rewrite Replace1_absent by exact H.
  now destruct header.
Qed.

(* ===================================================================== *)
(** ** Substitution into header values *)
(* ===================================================================== *)

(** C1, as stated, fails.  A rule matched through its splat does not
    replace the character [*] in its header values: for the rule
    [/static/*] with the header [Access-Control-Allow-Origin: *] and the
    request path [/static/image.jpg], the value stays [*]. *)
Lemma splat_star_is_not_substituted :
  ~ (forall (r : Rule) (in_ : URL) (stack : list Header),
       fst (hasSplat (patternFragment r) (requestFragment r in_)
              (delimiter r)) = true ->
       Match_body in_ stack r =
       stack ++ List.map
         (substituted "*"
            (snd (hasSplat (patternFragment r) (requestFragment r in_)
                    (delimiter r))))
         (Headers r)).
Proof.
  intros H.
  specialize (H (pathRule "/static/*" [hdr "Access-Control-Allow-Origin" "*"])
                (request "https" "custom.domain" "/static/image.jpg")
                [] eq_refl).
  vm_compute in H. discriminate H.
Qed.

(** C1, amended.  For every rule matched through the splat mechanism,
    on its host when the pattern has one and on its path otherwise, the
    rule adds its headers with the first occurrence of the literal token
    [:splat] in each value replaced by the captured substring: the text
    before and after that occurrence is kept, and a value without the
    token (a value [*] for one) is added unchanged. *)
Theorem splat_substitutes_splat_token
    (r : Rule) (in_ : URL) (stack : list Header) :
  fst (hasSplat (patternFragment r) (requestFragment r in_) (delimiter r))
    = true ->
  let capture := splatCapture (patternFragment r) (requestFragment r in_) in
  Match_body in_ stack r
    = stack ++ List.map (substituted ":splat" capture) (Headers r)
  /\ (forall header before after,
        firstOccurrence (Value header) ":splat" before after ->
        Value (substituted ":splat" capture header)
          = before +:+ capture +:+ after)
  /\ (forall header,
        strings.Contains (Value header) ":splat" = false ->
        substituted ":splat" capture header = header).
Proof.
  intros Hs capture. split; [| split].
  - rewrite Match_body_firstMechanism. unfold firstMechanism.
    rewrite Hs. rewrite hasSplat_unfold in Hs |- *.
    destruct (_ && _); [reflexivity | discriminate].
  - intros header before after. apply substituted_first.
  - intros header. apply substituted_absent.
Qed.

Lemma splat_substitutes_splat_token_witness :
  Match_body (request "https" "custom.domain" "/static/image.jpg") []
    (pathRule "/static/*"
       [hdr "Access-Control-Allow-Origin" "*"; hdr "X-File" "f=:splat;:splat"])
  = [hdr "Access-Control-Allow-Origin" "*"; hdr "X-File" "f=image.jpg;:splat"].
Proof.
  exact (proj1 (splat_substitutes_splat_token
                  (pathRule "/static/*"
                     [hdr "Access-Control-Allow-Origin" "*";
                      hdr "X-File" "f=:splat;:splat"])
                  (request "https" "custom.domain" "/static/image.jpg")
                  [] eq_refl)).
Defined.

(** C7.  For every rule matched through a named placeholder (the splat
    test having failed), each header value of the rule has only the first
    occurrence of the placeholder token replaced by the captured
    substring: what follows that occurrence, later occurrences of the
    token included, is added as it is written. *)
Theorem placeholder_replaced_once
    (r : Rule) (in_ : URL) (stack : list Header) :
  fst (hasSplat (patternFragment r) (requestFragment r in_) (delimiter r))
    = false ->
  fst (fst (hasPlaceholder (patternFragment r) (requestFragment r in_)
              (delimiter r))) = true ->
  let tok := regexp.placeholderMatcher_FindString (patternFragment r) in
  let capture :=
    placeholderCapture (patternFragment r) (requestFragment r in_) in
  Match_body in_ stack r
    = stack ++ List.map (substituted tok capture) (Headers r)
  /\ (forall header before after,
        firstOccurrence (Value header) tok before after ->
        Value (substituted tok capture header)
          = before +:+ capture +:+ after)
  /\ (forall header,
        strings.Contains (Value header) tok = false ->
        substituted tok capture header = header)
  /\ strings.Replace1 ":ref and :ref" ":ref" "123" = "123 and :ref"%string.
Proof.
  intros Hs Hp tok capture. split; [| split; [| split]].
  - rewrite Match_body_firstMechanism. unfold firstMechanism.
    rewrite Hs, Hp. rewrite hasPlaceholder_unfold in Hp |- *.
    destruct (_ && _); [reflexivity | discriminate].
  - intros header before after. apply substituted_first.
  - intros header. apply substituted_absent.
  - reflexivity.
Qed.

Lemma placeholder_replaced_once_witness :
  Match_body (request "https" "example.dev" "/double/123") []
    (pathRule "/double/:ref" [hdr "x-ref" ":ref and :ref"])
  = [hdr "x-ref" "123 and :ref"].
Proof.
  exact (proj1 (placeholder_replaced_once
                  (pathRule "/double/:ref" [hdr "x-ref" ":ref and :ref"])
                  (request "https" "example.dev" "/double/123")
                  [] eq_refl eq_refl)).
Defined.

(* ===================================================================== *)
(** ** Captures and the forbidden delimiter *)
(* ===================================================================== *)

(** C3.  A splat or placeholder test succeeds only with a capture, the
    input without the prefix and the suffix of the pattern, that does not
    contain the forbidden delimiter; a capture that contains it makes the
    test fail.  [Match] passes [.] for hosts and [/] for paths, so
    [/movies/:title] does not match [/movies/star-wars/episode-1] and a
    host splat or placeholder does not capture [sub.dub]. *)
Theorem capture_excludes_delimiter (src in_ disallowed : string) :
  (fst (hasSplat src in_ disallowed) = true ->
     snd (hasSplat src in_ disallowed) = splatCapture src in_
     /\ strings.Contains (splatCapture src in_) disallowed = false)
  /\ (strings.Contains (splatCapture src in_) disallowed = true ->
        hasSplat src in_ disallowed = (false, EmptyString))
  /\ (fst (fst (hasPlaceholder src in_ disallowed)) = true ->
        snd (hasPlaceholder src in_ disallowed) = placeholderCapture src in_
        /\ strings.Contains (placeholderCapture src in_) disallowed = false)
  /\ (strings.Contains (placeholderCapture src in_) disallowed = true ->
        hasPlaceholder src in_ disallowed
          = (false, EmptyString, EmptyString))
  /\ (forall (r : Rule) (u : URL) (stack : list Header),
        strings.Contains
          (splatCapture (patternFragment r) (requestFragment r u))
          (delimiter r) = true ->
        strings.Contains
          (placeholderCapture (patternFragment r) (requestFragment r u))
          (delimiter r) = true ->
        Match_body u stack r
          = stack ++ (if String.eqb (patternFragment r) (requestFragment r u)
                      then Headers r else []))
  /\ Match [pathRule "/movies/:title" [hdr "x-movie-name" ":title"]]
       (request "https" "example.com" "/movies/star-wars/episode-1") = []
  /\ Match [hostRule ":subdomain.example.com" "/*"
              [hdr "x-subdomain" ":subdomain"]]
       (request "https" "sub.dub.example.com" "/whatever") = []
  /\ Match [hostRule "*.example.com" "/*" [hdr "x-subdomain" ":splat"]]
       (request "https" "sub.dub.example.com" "/whatever") = []
  /\ Match [pathRule "/static/*" [hdr "x-file" ":splat"]]
       (request "https" "example.com" "/static/css/site.css") = [].
Proof.
  rewrite hasSplat_unfold, hasPlaceholder_unfold. simpl.
  split; [| split; [| split; [| split; [| split]]]].
  - intros Hs. destruct (_ && _) eqn:E; [| discriminate].
    split; [reflexivity |].
    apply andb_true_iff in E as [_ E]. now apply negb_true_iff in E.
  - intros ->. now rewrite andb_false_r.
  - intros Hp. destruct (_ && _) eqn:E; [| discriminate].
    split; [reflexivity |].
    apply andb_true_iff in E as [_ E]. now apply negb_true_iff in E.
  - intros ->. now rewrite andb_false_r.
  - intros r u stack Hs Hp. rewrite Match_body_firstMechanism.
    unfold firstMechanism. rewrite hasSplat_unfold, hasPlaceholder_unfold.
    simpl. rewrite Hs, Hp, !andb_false_r. reflexivity.
  - repeat split; reflexivity.
Qed.

Lemma capture_excludes_delimiter_witness :
  strings.Contains
    (placeholderCapture "/movies/:title" "/movies/star-wars/episode-1") "/"
    = true
  /\ hasPlaceholder "/movies/:title" "/movies/star-wars/episode-1" "/"
     = (false, EmptyString, EmptyString)
  /\ strings.Contains
       (splatCapture "*.example.com" "custom.example.com") "." = false.
Proof.
  pose proof (capture_excludes_delimiter
                "/movies/:title" "/movies/star-wars/episode-1" "/") as H1.
  pose proof (capture_excludes_delimiter
                "*.example.com" "custom.example.com" ".") as H2.
  split; [reflexivity | split].
  - apply H1. reflexivity.
  - apply H2. reflexivity.
Defined.

(* ===================================================================== *)
(** ** One rule in the loop of [Match] *)
(* ===================================================================== *)

(** C2.  For a rule whose pattern has a host, the loop body tests the
    host name of the request against that host, by splat, then
    placeholder, then equality, and adds what the first success gives.
    Neither the path of the request nor the path of the pattern plays a
    part: two requests with one host name, and two rules with one host
    and one header list, leave the same stack. *)
Theorem host_rule_tests_host_only
    (r1 r2 : Rule) (in1 in2 : URL) (stack : list Header) :
  Host (Pattern r1) <> EmptyString ->
  Host (Pattern r2) = Host (Pattern r1) ->
  Headers r2 = Headers r1 ->
  Hostname in2 = Hostname in1 ->
  Match_body in1 stack r1
    = stack ++ firstMechanism (Host (Pattern r1)) (Hostname in1) "."
                 (Headers r1)
  /\ Match_body in2 stack r2 = Match_body in1 stack r1.
Proof.
  intros Hne Hhost Hhs Hin.
  assert (E : forall r u, Host (Pattern r) <> EmptyString ->
            Match_body u stack r
              = stack ++ firstMechanism (Host (Pattern r)) (Hostname u) "."
                           (Headers r)).
  { intros r u Hr. rewrite Match_body_firstMechanism.
    unfold patternFragment, requestFragment, delimiter.
    destruct (String.eqb_spec (Host (Pattern r)) ""); [contradiction |].
    reflexivity. }
  split; [now apply E |].
  rewrite (E r1 in1 Hne), (E r2 in2) by (now rewrite Hhost).
  now rewrite Hhost, Hhs, Hin.
Qed.

Lemma host_rule_tests_host_only_witness :
  Match_body (request "https" "myproject.pages.dev:8443" "/no/such/page") []
    (hostRule "myproject.pages.dev" "/never/*" [hdr "X-Robots-Tag" "noindex"])
  = Match_body (request "https" "myproject.pages.dev" "/home") []
      (hostRule "myproject.pages.dev" "/*" [hdr "X-Robots-Tag" "noindex"])
  /\ Match_body (request "https" "myproject.pages.dev" "/home") []
       (hostRule "myproject.pages.dev" "/*" [hdr "X-Robots-Tag" "noindex"])
     = [hdr "X-Robots-Tag" "noindex"].
Proof.
  pose proof (host_rule_tests_host_only
    (hostRule "myproject.pages.dev" "/*" [hdr "X-Robots-Tag" "noindex"])
    (hostRule "myproject.pages.dev" "/never/*" [hdr "X-Robots-Tag" "noindex"])
    (request "https" "myproject.pages.dev" "/home")
    (request "https" "myproject.pages.dev:8443" "/no/such/page")
    []) as H.
  destruct H as [H1 H2]; try reflexivity; [discriminate |].
  split; [exact H2 | exact H1].
Defined.

(** C10.  In one call of [Match] every rule adds to the stack at most
    once: the stack is the concatenation, in file order, of one
    contribution per rule, and a contribution is what the first
    successful mechanism gives, in the order splat, placeholder,
    equality, on the host name when the pattern has a host and on the
    path otherwise.  It is empty or as long as the header list of the
    rule, also where several mechanisms would succeed, as for the pattern
    and path [/*:x], on which all three do. *)
Theorem rule_contributes_once (h : File) (in_ : URL) :
  Match_stack h in_ = flat_map (contribution in_) h
  /\ (forall r : Rule,
        contribution in_ r
          = firstMechanism (patternFragment r) (requestFragment r in_)
              (delimiter r) (Headers r)
        /\ (length (contribution in_ r) = 0
            \/ length (contribution in_ r) = length (Headers r)))
  /\ length (Match_stack h in_)
       <= list_sum (List.map (fun r => length (Headers r)) h)
  /\ (fst (hasSplat "/*:x" "/*:x" "/") = true
      /\ fst (fst (hasPlaceholder "/*:x" "/*:x" "/")) = true
      /\ String.eqb "/*:x" "/*:x" = true
      /\ contribution (request "https" "example.com" "/*:x")
           (pathRule "/*:x" [hdr "x-a" ":splat and :x"])
         = [hdr "x-a" "* and :x"]).
Proof.
  assert (C : forall r : Rule,
        contribution in_ r
          = firstMechanism (patternFragment r) (requestFragment r in_)
              (delimiter r) (Headers r)
        /\ (length (contribution in_ r) = 0
            \/ length (contribution in_ r) = length (Headers r))).
  { intros r. unfold contribution.
    rewrite Match_body_firstMechanism. simpl.
    split; [reflexivity | apply firstMechanism_length]. }
  split; [apply Match_stack_flat_map |].
  split; [exact C |].
  split; [| repeat split; reflexivity].
  rewrite Match_stack_flat_map.
  induction h as [|r h IH]; simpl; [lia |].
  rewrite length_app. destruct (C r) as [_ [L|L]]; rewrite L; lia.
Qed.

(* ===================================================================== *)
(** ** Scheme and port of the request *)
(* ===================================================================== *)

Lemma Match_body_reads_hostname_and_path
    (in1 in2 : URL) (stack : list Header) (r : Rule) :
  Hostname in1 = Hostname in2 -> Path in1 = Path in2 ->
  Match_body in1 stack r = Match_body in2 stack r.
Proof. intros Hh Hp. unfold Match_body. now rewrite Hh, Hp. Qed.

(** C5.  Two requests with the same host name and the same path get the
    same header stack from every file, hence the same header lines in
    every order in which [Flatten] may list them: their schemes and
    ports, and whatever else they differ in, play no part. *)
Theorem Match_ignores_scheme_and_port (h : File) (in1 in2 : URL) :
  Hostname in1 = Hostname in2 ->
  Path in1 = Path in2 ->
  Match_stack h in1 = Match_stack h in2
  /\ Match h in1 = Match h in2
  /\ (forall out, Match_returns h in1 out <-> Match_returns h in2 out).
Proof.
  intros Hh Hp.
  assert (E : Match_stack h in1 = Match_stack h in2).
  { unfold Match_stack. generalize (@nil Header) as stack.
    induction h as [|r h IH]; intros stack; simpl; [reflexivity |].
    rewrite (Match_body_reads_hostname_and_path in1 in2 stack r Hh Hp).
    apply IH. }
  unfold Match, Match_returns. rewrite E. repeat split; auto.
Qed.

Lemma Match_ignores_scheme_and_port_witness :
  Hostname (request "https" "example.com:1234" "/secure/page")
    = Hostname (request "other" "example.com" "/secure/page")
  /\ Match [hostRule "example.com" "/*" [hdr "X-Frame-Options" "DENY"];
            pathRule "/secure/page" [hdr "X-Content-Type-Options" "nosniff"]]
       (request "https" "example.com:1234" "/secure/page")
     = Match [hostRule "example.com" "/*" [hdr "X-Frame-Options" "DENY"];
              pathRule "/secure/page" [hdr "X-Content-Type-Options" "nosniff"]]
         (request "other" "example.com" "/secure/page").
Proof.
  split; [reflexivity |].
  apply (Match_ignores_scheme_and_port
           [hostRule "example.com" "/*" [hdr "X-Frame-Options" "DENY"];
            pathRule "/secure/page" [hdr "X-Content-Type-Options" "nosniff"]]
           (request "https" "example.com:1234" "/secure/page")
           (request "other" "example.com" "/secure/page"));
    reflexivity.
Defined.

(* ===================================================================== *)
(** ** Detach and joining in [Flatten] *)
(* ===================================================================== *)

Lemma step_at_detach (n v : string) (acc : option (list string)) :
  step_at n acc {| Name := n; Value := v; Detach := true |} = None.
Proof. unfold step_at. simpl. now rewrite String.eqb_refl. Qed.

Lemma lookup_Flatten_map_app (pre post : list Header) (n : string) :
  Flatten_map (pre ++ post) !! n
  = fold_left (step_at n) post (Flatten_map pre !! n).
Proof.
  rewrite !lookup_Flatten_map. now rewrite fold_left_app.
Qed.

(** C4.  A detach entry for the name [n] deletes from the map of
    [Flatten] the key [n], that is the values that the earlier entries
    [pre] had gathered for [n], and nothing else.  After the later
    entries [post], the name [n] has what [post] alone gives it, so that
    later entries bring it back, and every other name [m] has what it
    has without the detach entry. *)
Theorem detach_clears_earlier_values_only
    (pre post : list Header) (n v m : string) :
  m <> n ->
  let d := {| Name := n; Value := v; Detach := true |} in
  Flatten_map (pre ++ [d]) = delete n (Flatten_map pre)
  /\ Flatten_map (pre ++ d :: post) !! n = Flatten_map post !! n
  /\ Flatten_map (pre ++ d :: post) !! m = Flatten_map (pre ++ post) !! m
  /\ Flatten_lines_for n (pre ++ d :: post) = Flatten_lines_for n post
  /\ Flatten_lines_for m (pre ++ d :: post) = Flatten_lines_for m (pre ++ post)
  /\ (noDetach n post = true -> values_of n post <> [] ->
      Flatten_lines_for n (pre ++ d :: post)
        = [n +:+ ": " +:+ strings.Join (values_of n post) ","]).
Proof.
  intros Hm d.
  assert (En : Flatten_map (pre ++ d :: post) !! n = Flatten_map post !! n).
  { rewrite lookup_Flatten_map_app. simpl. unfold d at 1.
    rewrite step_at_detach. now rewrite lookup_Flatten_map. }
  assert (Em : Flatten_map (pre ++ d :: post) !! m
               = Flatten_map (pre ++ post) !! m).
  { rewrite !lookup_Flatten_map_app. simpl.
    rewrite step_at_other; [reflexivity | simpl; congruence]. }
  split; [| split; [exact En | split; [exact Em | split; [| split]]]].
  - unfold Flatten_map. rewrite fold_left_app. reflexivity.
  - now rewrite !Flatten_lines_for_lookup, En.
  - now rewrite !Flatten_lines_for_lookup, Em.
  - intros Hnd Hvs. rewrite Flatten_lines_for_lookup, En.
    rewrite lookup_Flatten_map, (step_at_accumulates n post None Hnd).
    destruct (values_of n post); [contradiction | reflexivity].
Qed.

Lemma detach_clears_earlier_values_only_witness :
  Flatten [hdr "A" "1"; hdr "B" "2"; detach "A"] = ["B: 2"%string]
  /\ Flatten_lines_for "A"
       [hdr "A" "1"; hdr "B" "2"; detach "A"; hdr "A" "3"; hdr "B" "4"]
     = ["A: 3"%string]
  /\ Flatten_lines_for "B"
       [hdr "A" "1"; hdr "B" "2"; detach "A"; hdr "A" "3"; hdr "B" "4"]
     = Flatten_lines_for "B" [hdr "A" "1"; hdr "B" "2"; hdr "A" "3"; hdr "B" "4"].
Proof.
  pose proof (detach_clears_earlier_values_only
                [hdr "A" "1"; hdr "B" "2"] [hdr "A" "3"; hdr "B" "4"]
                "A" "" "B") as H.
  destruct H as (_ & _ & _ & _ & Hm & Hn); [discriminate |].
  split; [reflexivity | split].
  - apply Hn; [reflexivity | discriminate].
  - exact Hm.
Defined.

Lemma values_of_app (n : string) (a b : list Header) :
  values_of n (a ++ b) = values_of n a ++ values_of n b.
Proof. unfold values_of. now rewrite List.filter_app, List.map_app. Qed.

Lemma values_of_flat_map {A : Type} (n : string) (f : A -> list Header)
    (l : list A) :
  values_of n (flat_map f l) = flat_map (fun x => values_of n (f x)) l.
Proof.
  induction l as [|x l IH]; simpl; [reflexivity |].
  now rewrite values_of_app, IH.
Qed.

(** C8.  Let the stack of a [Match] call end with entries [post] that
    hold no detach entry for the name [n] and at least one value for it,
    nothing for [n] being left from the entries [pre] before them.  Then
    the output has exactly one line for [n], the name, a colon and a
    space, and the values for [n] joined by a comma without a space, in
    stack order, which is the order in which the file declares the rules
    that add them. *)
Theorem same_name_values_joined
    (h : File) (in_ : URL) (n : string) (pre post : list Header) :
  Match_stack h in_ = pre ++ post ->
  Flatten_map pre !! n = None ->
  noDetach n post = true ->
  values_of n post <> [] ->
  let line := n +:+ ": " +:+ strings.Join (values_of n post) "," in
  Flatten_map (Match_stack h in_) !! n = Some (values_of n post)
  /\ Flatten_lines_for n (Match_stack h in_) = [line]
  /\ In line (Match h in_)
  /\ (forall out, Match_returns h in_ out -> In line out)
  /\ values_of n (Match_stack h in_)
     = flat_map (fun r => values_of n (contribution in_ r)) h.
Proof.
  intros Hsplit Hpre Hnd Hvs line.
  assert (L : Flatten_map (Match_stack h in_) !! n = Some (values_of n post)).
  { rewrite Hsplit, lookup_Flatten_map_app, Hpre.
    rewrite (step_at_accumulates n post None Hnd).
    destruct (values_of n post); [contradiction | reflexivity]. }
  split; [exact L |]. split; [| split; [| split]].
  - now rewrite Flatten_lines_for_lookup, L.
  - unfold Match. exact (In_Flatten _ _ _ L).
  - intros out Hout. unfold Match_returns, Flatten_returns in Hout.
    apply Permutation_sym in Hout.
    apply (Permutation_in _ Hout). exact (In_Flatten _ _ _ L).
  - now rewrite Match_stack_flat_map, values_of_flat_map.
Qed.

Lemma same_name_values_joined_witness :
  In "X-Robots-Tag: nosnippet,noindex"%string
    (Match
       [pathRule "/static/*"
          [hdr "Access-Control-Allow-Origin" "*"; hdr "X-Robots-Tag" "nosnippet"];
        hostRule "myproject.pages.dev" "/*" [hdr "X-Robots-Tag" "noindex"]]
       (request "https" "myproject.pages.dev" "/static/styles.css"))
  /\ Flatten_lines_for "X-Robots-Tag"
       [hdr "X-Robots-Tag" "none"; detach "X-Robots-Tag";
        hdr "X-Robots-Tag" "nosnippet"; hdr "X-Robots-Tag" "noindex"]
     = ["X-Robots-Tag: nosnippet,noindex"%string].
Proof.
  split.
  - destruct (same_name_values_joined
             [pathRule "/static/*"
                [hdr "Access-Control-Allow-Origin" "*";
                 hdr "X-Robots-Tag" "nosnippet"];
              hostRule "myproject.pages.dev" "/*" [hdr "X-Robots-Tag" "noindex"]]
             (request "https" "myproject.pages.dev" "/static/styles.css")
             "X-Robots-Tag" []
             [hdr "Access-Control-Allow-Origin" "*";
              hdr "X-Robots-Tag" "nosnippet"; hdr "X-Robots-Tag" "noindex"])
      as (_ & _ & Hin & _);
      [reflexivity | reflexivity | reflexivity | discriminate | exact Hin].
  - destruct (same_name_values_joined
             [pathRule "/a"
                [hdr "X-Robots-Tag" "none"; detach "X-Robots-Tag";
                 hdr "X-Robots-Tag" "nosnippet"; hdr "X-Robots-Tag" "noindex"]]
             (request "https" "example.com" "/a")
             "X-Robots-Tag"
             [hdr "X-Robots-Tag" "none"; detach "X-Robots-Tag"]
             [hdr "X-Robots-Tag" "nosnippet"; hdr "X-Robots-Tag" "noindex"])
      as (_ & Hl & _);
      [reflexivity | reflexivity | reflexivity | discriminate | exact Hl].
Defined.

(* ===================================================================== *)
(** ** [Parse]: skipped lines and ports *)
(* ===================================================================== *)

Lemma Parse_loop_app (url_Parse : string -> URL + string) (st : ParseState)
    (a b : list string) :
  Parse_loop url_Parse st (a ++ b) =
  match Parse_loop url_Parse st a with
  | Ok st' => Parse_loop url_Parse st' b
  | Err e => Err e
  end.
Proof.
  revert st; induction a as [|x a IH]; intros st; simpl; [reflexivity |].
  destruct (Parse_line url_Parse st x); [apply IH | reflexivity].
Qed.

Lemma firstByteIs_HasPrefix (s : string) (c : ascii) :
  firstByteIs s c = strings.HasPrefix s (String c EmptyString).
Proof.
  destruct s as [|d s]; simpl; [reflexivity |].
  rewrite (Ascii.eqb_sym d c). now destruct (Ascii.eqb c d).
Qed.

(** C9.  A line that trims to the empty string, or whose trimmed text
    begins with [#], leaves the three variables of the loop as they are,
    whatever they are and however the raw line begins: [Parse] returns
    for an input with such a line what it returns without it.  With no
    rule open and a leading space or tab, the line is not taken for a
    header and the header-without-pattern error is not returned. *)
Theorem blank_and_comment_lines_skipped
    (url_Parse : string -> URL + string) (line : string) :
  strings.TrimSpace line = EmptyString
  \/ strings.HasPrefix (strings.TrimSpace line) "#" = true ->
  (forall st, Parse_line url_Parse st line = Ok st)
  /\ (forall pre post err,
        Parse url_Parse (mkReader (pre ++ line :: post) err)
        = Parse url_Parse (mkReader (pre ++ post) err))
  /\ Parse_line url_Parse
       {| hmap := []; pattern := None; headers := [] |} line
     <> Err (HeaderWithoutPattern line).
Proof.
  intros H.
  assert (S : forall st, Parse_line url_Parse st line = Ok st).
  { intros st. unfold Parse_line. rewrite firstByteIs_HasPrefix.
    destruct H as [-> | ->]; [reflexivity | now rewrite orb_true_r]. }
  split; [exact S | split].
  - intros pre post err. unfold Parse. simpl.
    rewrite !Parse_loop_app. simpl.
    destruct (Parse_loop url_Parse _ pre) as [st|e]; [| reflexivity].
    now rewrite S.
  - rewrite S. discriminate.
Qed.

Lemma blank_and_comment_lines_skipped_witness :
  Parse pathOnly
    (mkReader ["  # indented comment"; "/a"; "  x-a: b"]%string None)
  = Parse pathOnly (mkReader ["/a"; "  x-a: b"]%string None)
  /\ Parse_line pathOnly {| hmap := []; pattern := None; headers := [] |}
       (String (ascii_of_nat 9) "  ")
     = Ok {| hmap := []; pattern := None; headers := [] |}.
Proof.
  split.
  - apply (proj1 (proj2 (blank_and_comment_lines_skipped pathOnly
                           "  # indented comment" (or_intror eq_refl)))
             [] ["/a"; "  x-a: b"]%string None).
  - apply (proj1 (blank_and_comment_lines_skipped pathOnly
                    (String (ascii_of_nat 9) "  ") (or_introl eq_refl))).
Defined.

(** A pattern line of the shape [https?://host/...] whose host ends in a
    colon and digits is refused with the invalid-port error, whatever the
    state of the loop and whatever [url.Parse] would say. *)
Lemma Parse_line_rejects_port (url_Parse : string -> URL + string)
    (st : ParseState) (line host : string) :
  regexp.absoluteUrlMatcher_FindStringSubmatch (strings.TrimSpace line)
    = Some host ->
  regexp.hostPortMatcher_MatchString host = true ->
  firstByteIs line (ascii_of_nat 9) = false ->
  firstByteIs line " " = false ->
  Parse_line url_Parse st line = Err (InvalidPort (strings.TrimSpace line)).
Proof.
  intros Habs Hport Htab Hsp. unfold Parse_line.
  rewrite Htab, Hsp, Habs, Hport. simpl.
  destruct (strings.TrimSpace line) as [|c t] eqn:T; [discriminate Habs |].
  simpl. destruct (Ascii.eqb_spec c "#") as [->|]; [discriminate Habs |].
  reflexivity.
Qed.

(** C6 at the line [https://myproject.pages.dev:1234], a host with a
    port and no path.  The absolute-URL expression asks for a [/] after
    the host and does not match, so the port test is not reached: the
    line goes to [url.Parse] as it is, and [Parse] returns the error of
    [url.Parse], the invalid-scheme error, or a [File] with the rule,
    never the invalid-port error.  [url.Parse] of the Go library accepts
    the line and returns [portURL], with which [Parse] returns a [File]
    whose rule has the host [myproject.pages.dev:1234].  The same line
    with [/*] behind the port is refused. *)
Theorem port_without_path_not_refused (url_Parse : string -> URL + string) :
  regexp.absoluteUrlMatcher_FindStringSubmatch
    "https://myproject.pages.dev:1234" = None
  /\ Parse url_Parse (mkReader ["https://myproject.pages.dev:1234"%string] None)
     = match url_Parse "https://myproject.pages.dev:1234" with
       | inr msg => Err (UrlError msg)
       | inl u =>
           if negb (String.eqb (Scheme u) EmptyString)
              && negb (String.eqb (Scheme u) "https")
           then Err (InvalidScheme (Scheme u))
           else Ok [ {| Pattern := u; Headers := [] |} ]
       end
  /\ isInvalidPort
       (Parse url_Parse
          (mkReader ["https://myproject.pages.dev:1234"%string] None)) = false
  /\ Parse (fun _ => inl portURL)
       (mkReader ["https://myproject.pages.dev:1234"%string] None)
     = Ok [ {| Pattern := portURL; Headers := [] |} ]
  /\ Parse url_Parse
       (mkReader ["https://myproject.pages.dev:1234/*"%string] None)
     = Err (InvalidPort "https://myproject.pages.dev:1234/*").
Proof.
  assert (E : Parse url_Parse
                (mkReader ["https://myproject.pages.dev:1234"%string] None)
     = match url_Parse "https://myproject.pages.dev:1234" with
       | inr msg => Err (UrlError msg)
       | inl u =>
           if negb (String.eqb (Scheme u) EmptyString)
              && negb (String.eqb (Scheme u) "https")
           then Err (InvalidScheme (Scheme u))
           else Ok [ {| Pattern := u; Headers := [] |} ]
       end).
  { unfold Parse. simpl scanned. simpl scanErr. unfold Parse_loop, Parse_line.
    change (strings.TrimSpace "https://myproject.pages.dev:1234")
      with "https://myproject.pages.dev:1234"%string.
    change (regexp.absoluteUrlMatcher_FindStringSubmatch
              "https://myproject.pages.dev:1234") with (@None string).
    cbn [String.eqb firstByteIs orb Ascii.eqb Bool.eqb ascii_of_nat
         ascii_of_pos pattern hmap headers].
    destruct (url_Parse "https://myproject.pages.dev:1234") as [u|msg];
      [| reflexivity].
    destruct (negb (String.eqb (Scheme u) "")
              && negb (String.eqb (Scheme u) "https")); reflexivity. }
  split; [reflexivity |]. split; [exact E |]. split; [| split].
  - rewrite E. destruct (url_Parse _) as [u|msg]; [| reflexivity].
    now destruct (negb _ && negb _).
  - reflexivity.
  - unfold Parse. simpl scanned. unfold Parse_loop.
    rewrite (Parse_line_rejects_port url_Parse
               {| hmap := []; pattern := None; headers := [] |}
               "https://myproject.pages.dev:1234/*"
               "myproject.pages.dev:1234"); reflexivity.
Qed.

(* ===================================================================== *)
(** ** The scenarios of the test suite *)
(* ===================================================================== *)

Example Match_basic_host_and_splat :
  Permutation
    (Match
       [pathRule "/secure/page"
          [hdr "X-Frame-Options" "DENY"; hdr "X-Content-Type-Options" "nosniff";
           hdr "Referrer-Policy" "no-referrer"];
        pathRule "/static/*"
          [hdr "Access-Control-Allow-Origin" "*"; hdr "X-Robots-Tag" "nosnippet"];
        hostRule "myproject.pages.dev" "/*" [hdr "X-Robots-Tag" "noindex"]]
       (request "https" "myproject.pages.dev" "/static/styles.css"))
    ["Access-Control-Allow-Origin: *"; "X-Robots-Tag: nosnippet,noindex"]%string.
Proof. vm_compute. apply Permutation_refl. Qed.

Example Match_basic_host_and_path :
  Permutation
    (Match
       [pathRule "/secure/page"
          [hdr "X-Frame-Options" "DENY"; hdr "X-Content-Type-Options" "nosniff";
           hdr "Referrer-Policy" "no-referrer"];
        pathRule "/static/*"
          [hdr "Access-Control-Allow-Origin" "*"; hdr "X-Robots-Tag" "nosnippet"];
        hostRule "myproject.pages.dev" "/*" [hdr "X-Robots-Tag" "noindex"]]
       (request "https" "myproject.pages.dev" "/secure/page"))
    ["Referrer-Policy: no-referrer"; "X-Content-Type-Options: nosniff";
     "X-Frame-Options: DENY"; "X-Robots-Tag: noindex"]%string.
Proof. vm_compute. apply Permutation_refl. Qed.

Example Match_placeholder_domain :
  Match [hostRule ":subdomain.example.com" "/*" [hdr "x-subdomain" ":subdomain"]]
    (request "https" "custom.example.com" "/whatever")
  = ["x-subdomain: custom"%string].
Proof. reflexivity. Qed.

Example Match_placeholder_domain_double :
  Match [hostRule ":subdomain.example.dev" "/*"
           [hdr "x-subdomain" ":subdomain and :subdomain"]]
    (request "https" "sub.example.dev" "/whatever")
  = ["x-subdomain: sub and :subdomain"%string].
Proof. reflexivity. Qed.

Example Match_invalid_placeholder :
  Match [pathRule "/secure/:1page" [hdr "x-placeholder" ":1page"];
         hostRule "subdomain.:1domain.com" "/*" [hdr "x-placeholder" ":1domain"]]
    (request "https" "subdomain.example.com" "/secure/example")
  = [].
Proof. reflexivity. Qed.

Example Match_detach :
  Match [pathRule "/*" [hdr "Content-Security-Policy" "default-src"];
         pathRule "/*.jpg" [detach "Content-Security-Policy"]]
    (request "https" "custom.domain" "/any/path/image.jpg")
  = [].
Proof. reflexivity. Qed.

Example Parse_header_without_pattern :
  Parse pathOnly (mkReader ["  x-a: b"%string] None)
  = Err (HeaderWithoutPattern "  x-a: b").
Proof. reflexivity. Qed.

Example Parse_rule_with_detach :
  Parse pathOnly
    (mkReader ["# a comment"; "/a"; "  x-a:  b "; ""; "  ! x-c"]%string None)
  = Ok [pathRule "/a" [hdr "x-a" "b"; detach "x-c"]].
Proof. reflexivity. Qed.

(* ===================================================================== *)
(** ** Strings: cutting, suffixes and the text between two pieces *)
(* ===================================================================== *)

Lemma append_assoc (a b c : string) : (a +:+ b) +:+ c = a +:+ (b +:+ c).
Proof. induction a as [|x a IH]; simpl; [reflexivity | now rewrite IH]. Qed.

Lemma append_empty_r (a : string) : a +:+ EmptyString = a.
Proof. induction a as [|x a IH]; simpl; [reflexivity | now rewrite IH]. Qed.

Lemma take_drop (n : nat) (s : string) :
  strings.take n s +:+ strings.drop n s = s.
Proof.
  revert s; induction n as [|n IH]; intros s; simpl; [reflexivity |].
  destruct s as [|c s]; simpl; [reflexivity | now rewrite IH].
Qed.

Lemma take_append (a b : string) : strings.take (String.length a) (a +:+ b) = a.
Proof. induction a as [|c a IH]; simpl; [reflexivity | now rewrite IH]. Qed.

Lemma HasSuffix_inv (s suffix : string) :
  strings.HasSuffix s suffix = true ->
  s = strings.take (String.length s - String.length suffix) s +:+ suffix.
Proof.
  unfold strings.HasSuffix. intros H. apply andb_true_iff in H as [_ H].
  apply String.eqb_eq in H.
  pose proof (take_drop (String.length s - String.length suffix) s) as T.
  rewrite H in T. now symmetry.
Qed.

Lemma HasSuffix_append (a suffix : string) :
  strings.HasSuffix (a +:+ suffix) suffix = true.
Proof.
  unfold strings.HasSuffix. rewrite length_append.
  replace (String.length a + String.length suffix - String.length suffix)
    with (String.length a) by lia.
  rewrite drop_append, String.eqb_refl, andb_true_r.
  apply Nat.leb_le. lia.
Qed.

Lemma TrimSuffix_append (a suffix : string) :
  strings.TrimSuffix (a +:+ suffix) suffix = a.
Proof.
  unfold strings.TrimSuffix. rewrite HasSuffix_append, length_append.
  replace (String.length a + String.length suffix - String.length suffix)
    with (String.length a) by lia.
  apply take_append.
Qed.

Lemma TrimPrefix_append (p r : string) : strings.TrimPrefix (p +:+ r) p = r.
Proof.
  unfold strings.TrimPrefix. now rewrite HasPrefix_append, drop_append.
Qed.

Lemma HasPrefix_take (s p : string) (k : nat) :
  strings.HasPrefix s p = true -> String.length p <= k ->
  strings.HasPrefix (strings.take k s) p = true.
Proof.
  revert s k; induction p as [|c p IH]; intros s k H Hk; [reflexivity |].
  simpl in H. destruct s as [|d s]; [discriminate |].
  destruct (Ascii.eqb c d) eqn:E; [| discriminate].
  simpl in Hk. destruct k as [|k]; [lia |]. simpl. rewrite E.
  apply IH; [exact H | lia].
Qed.

(** An input that begins with [p] and ends with [s], the two not
    overlapping, is [p], then what [TrimSuffix] and [TrimPrefix] leave,
    then [s]. *)
Lemma between_pieces (in_ p s : string) :
  strings.HasPrefix in_ p = true ->
  strings.HasSuffix in_ s = true ->
  String.length p + String.length s <= String.length in_ ->
  in_ = p +:+ strings.TrimPrefix (strings.TrimSuffix in_ s) p +:+ s.
Proof.
  intros Hp Hs Hlen. unfold strings.TrimSuffix. rewrite Hs.
  pose proof (HasSuffix_inv _ _ Hs) as E.
  set (k := String.length in_ - String.length s) in *.
  assert (Hpk : strings.HasPrefix (strings.take k in_) p = true)
    by (apply HasPrefix_take; [exact Hp | unfold k; lia]).
  unfold strings.TrimPrefix. rewrite Hpk.
  rewrite <- append_assoc, <- (HasPrefix_inv _ _ Hpk). exact E.
Qed.

(** The other way round: in [p +:+ capture +:+ s] the two tests succeed
    and the trimming gives [capture] back. *)
Lemma pieces_between (p capture s : string) :
  strings.HasPrefix (p +:+ capture +:+ s) p = true
  /\ strings.HasSuffix (p +:+ capture +:+ s) s = true
  /\ strings.TrimPrefix (strings.TrimSuffix (p +:+ capture +:+ s) s) p
     = capture.
Proof.
  split; [apply HasPrefix_append |].
  rewrite <- append_assoc.
  split; [apply HasSuffix_append |].
  now rewrite TrimSuffix_append, TrimPrefix_append.
Qed.

Lemma Cut_spec (s sep before after : string) :
  strings.Cut s sep = Some (before, after) -> s = before +:+ sep +:+ after.
Proof.
  revert before; induction s as [|c s IH]; intros before H; simpl in H.
  - destruct (strings.HasPrefix "" sep) eqn:P; [| discriminate].
    injection H as <- <-. now apply HasPrefix_inv in P.
  - destruct (strings.HasPrefix (String c s) sep) eqn:P.
    + injection H as <- <-. now apply HasPrefix_inv in P.
    + destruct (strings.Cut s sep) as [[b a]|] eqn:C; [| discriminate].
      injection H as <- <-. simpl. f_equal. now apply IH.
Qed.

Lemma Cut_None (s sep : string) :
  strings.Contains s sep = false -> strings.Cut s sep = None.
Proof.
  induction s as [|c s IH]; intros H.
  - simpl in *. rewrite orb_false_r in H. now rewrite H.
  - pose proof (Contains_false_no_prefix _ _ H) as P.
    simpl in H |- *. simpl in P. rewrite P in H |- *. simpl in H.
    now rewrite (IH H).
Qed.

(** A separator of one byte cuts at its first occurrence. *)
Lemma Cut_byte (before after : string) (c : ascii) :
  strings.Contains before (String c EmptyString) = false ->
  strings.Cut (before +:+ String c after) (String c EmptyString)
  = Some (before, after).
Proof.
  induction before as [|x before IH]; intros H.
  - simpl. now rewrite Ascii.eqb_refl.
  - simpl in H. apply orb_false_iff in H as [Hx H].
    cbn [String.append strings.Cut strings.HasPrefix].
    destruct (Ascii.eqb c x); [discriminate |]. now rewrite (IH H).
Qed.

(** [Replace1] puts the new text where [Cut] cuts. *)
Lemma Replace1_Cut (s sep new before after : string) :
  strings.Cut s sep = Some (before, after) ->
  strings.Replace1 s sep new = before +:+ new +:+ after.
Proof.
  revert before; induction s as [|c s IH]; intros before H; simpl in H |- *.
  - destruct (strings.HasPrefix "" sep); [| discriminate].
    now injection H as <- <-.
  - destruct (strings.HasPrefix (String c s) sep).
    + now injection H as <- <-.
    + destruct (strings.Cut s sep) as [[b a]|] eqn:C; [| discriminate].
      injection H as <- <-. simpl. f_equal. now apply IH.
Qed.

Lemma Contains_append_byte (a b : string) (c : ascii) :
  strings.Contains (a +:+ String c b) (String c EmptyString) = true.
Proof.
  induction a as [|x a IH].
  - simpl. now rewrite Ascii.eqb_refl.
  - cbn [String.append strings.Contains]. rewrite IH. apply orb_true_r.
Qed.

(** A pattern with one [*] splits into what is before and what is
    behind it. *)
Lemma Split_one_splat (p s : string) :
  strings.Contains p "*" = false -> strings.Contains s "*" = false ->
  strings.Split (p +:+ String "*" s) "*" = [p; s].
Proof.
  intros Hp Hs. unfold strings.Split. rewrite length_append. simpl.
  replace (String.length p + S (String.length s))
    with (S (String.length p + String.length s)) by lia.
  cbn [strings.Split_rounds]. rewrite (Cut_byte p s "*" Hp). f_equal.
  destruct (String.length p + String.length s); [reflexivity |].
  cbn [strings.Split_rounds]. now rewrite (Cut_None s "*" Hs).
Qed.

Lemma Cut_firstOccurrence (s sep before after : string) :
  strings.Cut s sep = Some (before, after) ->
  firstOccurrence s sep before after.
Proof.
  intros H. split; [now apply Cut_spec |].
  revert before H; induction s as [|c s IH]; intros before H b' a' E;
    simpl in H.
  - destruct (strings.HasPrefix "" sep); [| discriminate].
    injection H as <- <-. simpl. lia.
  - destruct (strings.HasPrefix (String c s) sep) eqn:P.
    + injection H as <- <-. simpl. lia.
    + destruct (strings.Cut s sep) as [[b a]|] eqn:C; [| discriminate].
      injection H as <- <-.
      destruct b' as [|x b'].
      * simpl in E. rewrite E, HasPrefix_append in P. discriminate.
      * simpl in E. injection E as _ E. simpl.
        specialize (IH b eq_refl b' a' E). lia.
Qed.

Lemma firstOccurrence_Cut (s sep before after : string) :
  firstOccurrence s sep before after ->
  strings.Cut s sep = Some (before, after).
Proof.
  revert before; induction s as [|c s IH]; intros before [Heq Hmin]; simpl.
  - destruct before; [| discriminate]. destruct sep; [| discriminate].
    simpl in Heq |- *. now subst.
  - destruct (strings.HasPrefix (String c s) sep) eqn:P.
    + apply HasPrefix_inv in P.
      specialize (Hmin EmptyString _ P). simpl in Hmin.
      destruct before; [| simpl in Hmin; lia]. simpl in Heq.
      rewrite Heq at 1. now rewrite drop_append.
    + destruct before as [|d before].
      * simpl in Heq. rewrite Heq, HasPrefix_append in P. discriminate.
      * simpl in Heq. injection Heq as Hc Heq. subst d.
        rewrite (IH before); [reflexivity |].
        split; [exact Heq |].
        intros b' a' E. specialize (Hmin (String c b') a').
        simpl in Hmin. rewrite E in Hmin. specialize (Hmin eq_refl). lia.
Qed.

(* ===================================================================== *)
(** ** What the matchers accept *)
(* ===================================================================== *)

(** X1.  For a pattern with one [*], [p] before it and [s] behind it,
    and an input at least as long as [p] and [s] together, [hasSplat]
    succeeds with a capture exactly when the input is [p], the capture
    and [s] in a row and the capture is free of the delimiter. *)
Theorem splat_matches_exactly (p s in_ disallowed capture : string) :
  strings.Contains p "*" = false ->
  strings.Contains s "*" = false ->
  String.length p + String.length s <= String.length in_ ->
  hasSplat (p +:+ String "*" s) in_ disallowed = (true, capture)
  <-> in_ = p +:+ capture +:+ s
      /\ strings.Contains capture disallowed = false.
Proof.
  intros Hp Hs Hlen. rewrite hasSplat_unfold. unfold splatCapture.
  rewrite (Split_one_splat p s Hp Hs), Contains_append_byte.
  cbn [nth andb]. split.
  - intros H.
    destruct (strings.HasPrefix in_ p) eqn:P; [| discriminate].
    destruct (strings.HasSuffix in_ s) eqn:Q; [| discriminate].
    cbn [andb] in H.
    destruct (strings.Contains _ disallowed) eqn:D; [discriminate |].
    cbn [negb] in H. injection H as <-.
    split; [now apply between_pieces | exact D].
  - intros [-> D].
    destruct (pieces_between p capture s) as (-> & -> & ->).
    now rewrite D.
Qed.

Lemma splat_matches_exactly_witness :
  hasSplat "/static/*.jpg" "/static/image.jpg" "/" = (true, "image"%string)
  /\ ~ hasSplat "/static/*.jpg" "/static/a/image.jpg" "/"
       = (true, "a/image"%string).
Proof.
  split.
  - apply (splat_matches_exactly "/static/" ".jpg" "/static/image.jpg" "/"
             "image"); [reflexivity | reflexivity | simpl; lia |].
    split; reflexivity.
  - intros H.
    apply (splat_matches_exactly "/static/" ".jpg" "/static/a/image.jpg" "/"
             "a/image") in H; [| reflexivity | reflexivity | simpl; lia].
    destruct H as [_ H]. discriminate H.
Defined.

(** X2.  For a pattern whose placeholder token [tok] occurs first
    between [before] and [after], and an input at least as long as the
    two together, [hasPlaceholder] succeeds with a capture exactly when
    the input is [before], the capture and [after] in a row and the
    capture is free of the delimiter; the input is then the pattern with
    the token replaced once by the capture. *)
Theorem placeholder_matches_exactly
    (src before after in_ disallowed capture : string) :
  regexp.placeholderMatcher_FindString src <> EmptyString ->
  firstOccurrence src (regexp.placeholderMatcher_FindString src)
    before after ->
  String.length before + String.length after <= String.length in_ ->
  (hasPlaceholder src in_ disallowed
     = (true, regexp.placeholderMatcher_FindString src, capture)
   <-> in_ = before +:+ capture +:+ after
       /\ strings.Contains capture disallowed = false)
  /\ strings.Replace1 src (regexp.placeholderMatcher_FindString src) capture
     = before +:+ capture +:+ after.
Proof.
  intros Htok Hfirst Hlen.
  split; [| now apply Replace1_first].
  rewrite hasPlaceholder_unfold. unfold placeholderCapture, strings.SplitN2.
  cbv zeta. rewrite (firstOccurrence_Cut _ _ _ _ Hfirst).
  destruct (String.eqb_spec (regexp.placeholderMatcher_FindString src) "")
    as [E|_]; [contradiction |].
  cbn [nth andb negb]. split.
  - intros H.
    destruct (strings.HasPrefix in_ before) eqn:P; [| discriminate].
    destruct (strings.HasSuffix in_ after) eqn:Q; [| discriminate].
    cbn [andb] in H.
    destruct (strings.Contains _ disallowed) eqn:D; [discriminate |].
    cbn [negb] in H. injection H as <-.
    split; [now apply between_pieces | exact D].
  - intros [-> D].
    destruct (pieces_between before capture after) as (-> & -> & ->).
    now rewrite D.
Qed.

Lemma placeholder_matches_exactly_witness :
  hasPlaceholder "/movies/:title/cast" "/movies/star-wars/cast" "/"
  = (true, ":title"%string, "star-wars"%string)
  /\ strings.Replace1 "/movies/:title/cast" ":title" "star-wars"
     = "/movies/star-wars/cast"%string.
Proof.
  destruct (placeholder_matches_exactly "/movies/:title/cast" "/movies/"
              "/cast" "/movies/star-wars/cast" "/" "star-wars")
    as [Hiff Hrep].
  - discriminate.
  - apply Cut_firstOccurrence. reflexivity.
  - simpl; lia.
  - split; [| exact Hrep]. apply Hiff. split; reflexivity.
Defined.

Lemma all_takeWhile (p : ascii -> bool) (s : string) :
  regexp.all p (regexp.takeWhile p s) = true.
Proof.
  induction s as [|c s IH]; simpl; [reflexivity |].
  destruct (p c) eqn:E; simpl; [now rewrite E | reflexivity].
Qed.

(** X3.  A placeholder token, when the pattern has one, is a colon, a
    letter and then word bytes only, and it is a piece of the pattern;
    so a colon followed by a digit never starts a token. *)
Theorem placeholder_token_shape (src : string) :
  regexp.placeholderMatcher_FindString src <> EmptyString ->
  exists (d : ascii) (rest : string),
    regexp.placeholderMatcher_FindString src = String ":" (String d rest)
    /\ regexp.isLetter d = true
    /\ regexp.all regexp.isWord rest = true
    /\ strings.Contains src (regexp.placeholderMatcher_FindString src) = true.
Proof.
  intros H. pose proof (placeholder_occurs src H) as Hocc.
  revert H Hocc. generalize (strings.Contains src) as occ.
  induction src as [|c rest IH]; intros occ H Hocc; [now contradiction H |].
  cbn [regexp.placeholderMatcher_FindString] in *.
  destruct (Ascii.eqb_spec c ":") as [->|_]; [| now apply IH].
  destruct rest as [|d rest']; [now contradiction H |].
  destruct (regexp.isLetter d) eqn:L; [| now apply IH].
  exists d, (regexp.takeWhile regexp.isWord rest').
  repeat split; [exact L | apply all_takeWhile | exact Hocc].
Qed.

Lemma placeholder_token_shape_witness :
  exists (d : ascii) (rest : string),
    regexp.placeholderMatcher_FindString "/a/:1x/:id_2-rest"
      = String ":" (String d rest)
    /\ regexp.isLetter d = true
    /\ regexp.all regexp.isWord rest = true
    /\ strings.Contains "/a/:1x/:id_2-rest"
         (regexp.placeholderMatcher_FindString "/a/:1x/:id_2-rest") = true.
Proof.
  apply (placeholder_token_shape "/a/:1x/:id_2-rest"). discriminate.
Defined.

(* ===================================================================== *)
(** ** Rules in the loop of [Match] *)
(* ===================================================================== *)

(** X4.  A rule whose tested fragment has neither a [*] nor a
    placeholder token adds its headers, as they are written, exactly
    when the fragment equals the host name (the path) of the request,
    and nothing otherwise. *)
Theorem literal_pattern_matches_by_equality
    (r : Rule) (in_ : URL) (stack : list Header) :
  strings.Contains (patternFragment r) "*" = false ->
  regexp.placeholderMatcher_FindString (patternFragment r) = EmptyString ->
  Match_body in_ stack r
  = stack ++ (if String.eqb (patternFragment r) (requestFragment r in_)
              then Headers r else []).
Proof.
  intros Hstar Htok. rewrite Match_body_firstMechanism. unfold firstMechanism.
  rewrite hasSplat_unfold, hasPlaceholder_unfold. cbv zeta.
  rewrite Hstar, Htok. reflexivity.
Qed.

Lemma literal_pattern_matches_by_equality_witness :
  Match_body (request "https" "example.com" "/secure/:1page") []
    (pathRule "/secure/:1page" [hdr "x-placeholder" ":1page"])
  = [hdr "x-placeholder" ":1page"]
  /\ Match_body (request "https" "example.com" "/secure/example") []
       (pathRule "/secure/:1page" [hdr "x-placeholder" ":1page"])
     = [].
Proof.
  split.
  - apply (literal_pattern_matches_by_equality
             (pathRule "/secure/:1page" [hdr "x-placeholder" ":1page"])
             (request "https" "example.com" "/secure/:1page") []);
      reflexivity.
  - apply (literal_pattern_matches_by_equality
             (pathRule "/secure/:1page" [hdr "x-placeholder" ":1page"])
             (request "https" "example.com" "/secure/example") []);
      reflexivity.
Defined.

(** X5.  A rule whose pattern has no host is tested on the path of the
    request alone: it adds the same headers for every host, scheme and
    port. *)
Theorem path_rule_tests_path_only
    (r : Rule) (in1 in2 : URL) (stack : list Header) :
  Host (Pattern r) = EmptyString ->
  Path in2 = Path in1 ->
  Match_body in1 stack r
    = stack ++ firstMechanism (Path (Pattern r)) (Path in1) "/" (Headers r)
  /\ Match_body in2 stack r = Match_body in1 stack r.
Proof.
  intros Hhost Hpath. rewrite !Match_body_firstMechanism.
  unfold patternFragment, requestFragment, delimiter.
  rewrite Hhost, Hpath. split; reflexivity.
Qed.

Lemma path_rule_tests_path_only_witness :
  Match_body (request "http" "other.example.org:8080" "/static/app.js") []
    (pathRule "/static/*" [hdr "X-File" ":splat"])
  = Match_body (request "https" "example.com" "/static/app.js") []
      (pathRule "/static/*" [hdr "X-File" ":splat"]).
Proof.
  apply (path_rule_tests_path_only
           (pathRule "/static/*" [hdr "X-File" ":splat"])
           (request "https" "example.com" "/static/app.js")
           (request "http" "other.example.org:8080" "/static/app.js") []);
    reflexivity.
Defined.

(** X6.  The stack of two files in a row is the stack of the first
    followed by the stack of the second, so a rule never changes what
    another rule adds; a rule that adds nothing can be left out, and the
    empty file gives the empty output. *)
Theorem Match_stack_of_appended_files (h1 h2 : File) (in_ : URL) :
  Match_stack (h1 ++ h2) in_ = Match_stack h1 in_ ++ Match_stack h2 in_
  /\ (forall r, contribution in_ r = [] ->
        Match_stack (h1 ++ r :: h2) in_ = Match_stack (h1 ++ h2) in_)
  /\ Match [] in_ = [].
Proof.
  split; [| split].
  - rewrite !Match_stack_flat_map. apply flat_map_app.
  - intros r Hr. rewrite !Match_stack_flat_map, !flat_map_app. simpl.
    now rewrite Hr.
  - reflexivity.
Qed.

Lemma Match_stack_of_appended_files_witness :
  Match_stack
    ([pathRule "/a" [hdr "x-a" "1"]]
       ++ pathRule "/b" [hdr "x-b" "2"] :: [pathRule "/*" [hdr "x-c" "3"]])
    (request "https" "example.com" "/a")
  = Match_stack
      ([pathRule "/a" [hdr "x-a" "1"]] ++ [pathRule "/*" [hdr "x-c" "3"]])
      (request "https" "example.com" "/a").
Proof.
  apply (proj1 (proj2 (Match_stack_of_appended_files
                         [pathRule "/a" [hdr "x-a" "1"]]
                         [pathRule "/*" [hdr "x-c" "3"]]
                         (request "https" "example.com" "/a")))).
  reflexivity.
Defined.

Lemma substituted_names (tok capture : string) (hs : list Header) :
  List.map Name (List.map (substituted tok capture) hs) = List.map Name hs
  /\ List.map Detach (List.map (substituted tok capture) hs)
     = List.map Detach hs.
Proof.
  rewrite !List.map_map. split; apply List.map_ext; reflexivity.
Qed.

(** X7.  Substitution touches values only.  [replacedHeaders] returns as
    many headers as it is given, with the same names and the same detach
    flags in the same order; and what a rule adds to the stack is nothing
    or one entry per header of the rule with the name and the detach flag
    of that header, whatever was captured.  A token in a header name, or
    in the name of a detach directive, is never replaced. *)
Theorem substitution_keeps_names_and_flags
    (hs : list Header) (tok capture : string) (r : Rule) (in_ : URL) :
  length (replacedHeaders hs tok capture) = length hs
  /\ List.map Name (replacedHeaders hs tok capture) = List.map Name hs
  /\ List.map Detach (replacedHeaders hs tok capture) = List.map Detach hs
  /\ (contribution in_ r = []
      \/ (List.map Name (contribution in_ r) = List.map Name (Headers r)
          /\ List.map Detach (contribution in_ r)
             = List.map Detach (Headers r))).
Proof.
  rewrite replacedHeaders_map, length_map.
  destruct (substituted_names tok capture hs) as [Hn Hd].
  repeat split; [exact Hn | exact Hd |].
  unfold contribution. rewrite Match_body_firstMechanism. simpl.
  unfold firstMechanism.
  destruct (fst (hasSplat _ _ _)); [right; apply substituted_names |].
  destruct (fst (fst (hasPlaceholder _ _ _)));
    [right; apply substituted_names |].
  destruct (String.eqb _ _); [right; split; reflexivity | now left].
Qed.

(* ===================================================================== *)
(** ** The map and the output of [Flatten] *)
(* ===================================================================== *)

Lemma afterLastDetach_noDetach (n : string) (stack : list Header) :
  noDetach n stack = true -> afterLastDetach n stack = stack.
Proof.
  destruct stack as [|x rest]; [reflexivity |]. simpl. intros H.
  apply andb_true_iff in H as [Hx Hrest]. rewrite Hrest.
  apply negb_true_iff in Hx. now rewrite Hx.
Qed.

(** The value list of a name after a stack: what the entries behind the
    last detach entry for the name add, on top of the earlier list when
    there is no detach entry at all. *)
Lemma step_at_after_last_detach (n : string) (stack : list Header)
    (acc : option (list string)) :
  fold_left (step_at n) stack acc =
  if noDetach n stack
  then match values_of n stack with
       | [] => acc
       | vs => Some (default [] acc ++ vs)
       end
  else match values_of n (afterLastDetach n stack) with
       | [] => None
       | vs => Some vs
       end.
Proof.
  revert acc; induction stack as [|x rest IH]; intros acc; [reflexivity |].
  destruct (noDetach n (x :: rest)) eqn:Hall.
  - now apply step_at_accumulates.
  - cbn [fold_left afterLastDetach]. rewrite IH.
    destruct (noDetach n rest) eqn:Hrest; [| reflexivity].
    simpl in Hall. rewrite Hrest, andb_true_r in Hall.
    apply negb_false_iff in Hall. rewrite Hall.
    unfold detaches in Hall. apply andb_true_iff in Hall as [Hd Hn].
    unfold step_at. rewrite Hn, Hd. simpl.
    now destruct (values_of n rest).
Qed.

Lemma lookup_Flatten_map_surviving (stack : list Header) (n : string) :
  Flatten_map stack !! n =
  match values_of n (afterLastDetach n stack) with
  | [] => None
  | vs => Some vs
  end.
Proof.
  rewrite lookup_Flatten_map, step_at_after_last_detach.
  destruct (noDetach n stack) eqn:H; [| reflexivity].
  rewrite (afterLastDetach_noDetach n stack H).
  now destruct (values_of n stack).
Qed.

(** X8.  For every name, the map of [Flatten] holds the values that the
    stack entries behind the last detach entry for that name add to it,
    in stack order, and no key when there is none; the output has the
    one line that joins them, or no line for the name. *)
Theorem Flatten_keeps_values_after_last_detach
    (stack : list Header) (n : string) :
  Flatten_map stack !! n =
    match values_of n (afterLastDetach n stack) with
    | [] => None
    | vs => Some vs
    end
  /\ Flatten_lines_for n stack =
       match values_of n (afterLastDetach n stack) with
       | [] => []
       | vs => [n +:+ ": " +:+ strings.Join vs ","]
       end.
Proof.
  split; [apply lookup_Flatten_map_surviving |].
  rewrite Flatten_lines_for_lookup, lookup_Flatten_map_surviving.
  now destruct (values_of n (afterLastDetach n stack)).
Qed.

(** X9.  [Flatten] never writes a line without a value: every line of
    its output is a name of the map, a colon and a space, and the join
    of at least one value. *)
Theorem Flatten_lines_have_values (stack : list Header) (line : string) :
  In line (Flatten stack) ->
  exists (n v : string) (vs : list string),
    Flatten_map stack !! n = Some (v :: vs)
    /\ line = n +:+ ": " +:+ strings.Join (v :: vs) ",".
Proof.
  unfold Flatten. intros H. apply in_map_iff in H as ([n vs] & <- & Hin).
  apply list_elem_of_In, elem_of_map_to_list in Hin.
  pose proof (lookup_Flatten_map_surviving stack n) as L.
  rewrite Hin in L.
  destruct (values_of n (afterLastDetach n stack)) as [|v vs'];
    [discriminate |].
  injection L as ->. exists n, v, vs'. split; [exact Hin | reflexivity].
Qed.

Lemma Flatten_lines_have_values_witness :
  exists (n v : string) (vs : list string),
    Flatten_map [hdr "A" "1"; detach "B"; hdr "A" "2"] !! n = Some (v :: vs)
    /\ "A: 1,2"%string = n +:+ ": " +:+ strings.Join (v :: vs) ",".
Proof.
  apply (Flatten_lines_have_values [hdr "A" "1"; detach "B"; hdr "A" "2"]
           "A: 1,2").
  left. reflexivity.
Defined.

(** X10.  Two neighbouring stack entries with different names can be
    swapped without changing the map, hence the output: only the order
    of the entries of one name matters. *)
Theorem Flatten_swaps_different_names
    (pre post : list Header) (x y : Header) :
  Name x <> Name y ->
  Flatten_map (pre ++ x :: y :: post) = Flatten_map (pre ++ y :: x :: post)
  /\ Flatten (pre ++ x :: y :: post) = Flatten (pre ++ y :: x :: post).
Proof.
  intros Hne.
  assert (E : Flatten_map (pre ++ x :: y :: post)
              = Flatten_map (pre ++ y :: x :: post)).
  { apply map_eq. intros n. rewrite !lookup_Flatten_map_app. simpl.
    destruct (String.eqb_spec (Name x) n) as [Ex|Ex].
    - rewrite !(step_at_other n _ y) by congruence. reflexivity.
    - rewrite !(step_at_other n _ x) by exact Ex. reflexivity. }
  split; [exact E |]. unfold Flatten. now rewrite E.
Qed.

Lemma Flatten_swaps_different_names_witness :
  Flatten ([hdr "A" "1"] ++ detach "A" :: hdr "B" "2" :: [hdr "A" "3"])
  = Flatten ([hdr "A" "1"] ++ hdr "B" "2" :: detach "A" :: [hdr "A" "3"]).
Proof.
  apply (Flatten_swaps_different_names
           [hdr "A" "1"] [hdr "A" "3"] (detach "A") (hdr "B" "2")).
  discriminate.
Defined.

(** X11.  A stack of detach entries only, the empty stack included,
    gives the empty output: a detach entry for a name that the map does
    not hold is no error and leaves no trace. *)
Theorem Flatten_of_detach_entries_is_empty (stack : list Header) :
  forallb Detach stack = true ->
  Flatten_map stack = empty /\ Flatten stack = [].
Proof.
  intros H.
  assert (E : Flatten_map stack = empty).
  { apply map_eq. intros n. rewrite lookup_empty, lookup_Flatten_map.
    induction stack as [|x rest IH]; [reflexivity |].
    simpl in H. apply andb_true_iff in H as [Hx Hrest]. simpl.
    unfold step_at at 2. rewrite Hx.
    destruct (String.eqb (Name x) n); now apply IH. }
  split; [exact E |]. unfold Flatten. rewrite E.
  now rewrite map_to_list_empty.
Qed.

Lemma Flatten_of_detach_entries_is_empty_witness :
  Flatten [detach "Content-Security-Policy"; detach "X-Frame-Options"] = [].
Proof.
  apply (Flatten_of_detach_entries_is_empty
           [detach "Content-Security-Policy"; detach "X-Frame-Options"]).
  reflexivity.
Defined.

Lemma size_Flatten_step (m : gmap string (list string)) (x : Header) :
  size (Flatten_step m x) <= size m + (if Detach x then 0 else 1).
Proof.
  unfold Flatten_step. destruct (Detach x).
  - rewrite map_size_delete. destruct (m !! Name x); simpl; lia.
  - destruct (m !! Name x) eqn:L.
    + rewrite map_size_insert, L. simpl. lia.
    + rewrite map_size_insert, lookup_insert_eq. simpl.
      rewrite map_size_insert, L. simpl. lia.
Qed.

(** X12.  The output of [Flatten] has at most as many lines as the stack
    has entries that are not detach entries. *)
Theorem Flatten_length_bound (stack : list Header) :
  length (Flatten stack)
  <= length (List.filter (fun x => negb (Detach x)) stack).
Proof.
  unfold Flatten, Flatten_map.
  rewrite length_map, length_map_to_list.
  assert (G : forall m : gmap string (list string),
            size (fold_left Flatten_step stack m)
            <= size m + length (List.filter (fun x => negb (Detach x)) stack)).
  { induction stack as [|x rest IH]; intros m; simpl; [lia |].
    specialize (IH (Flatten_step m x)).
    pose proof (size_Flatten_step m x) as Hs.
    destruct (Detach x); simpl in *; lia. }
  specialize (G empty). now rewrite map_size_empty in G.
Qed.

(* ===================================================================== *)
(** ** The loop of [Parse], line by line *)
(* ===================================================================== *)

Lemma Cut_before_free (s sep before after : string) :
  sep <> EmptyString ->
  strings.Cut s sep = Some (before, after) ->
  strings.Contains before sep = false.
Proof.
  intros Hsep H. destruct (strings.Contains before sep) eqn:C; [| reflexivity].
  exfalso. destruct (Cut_Contains _ _ C) as (b1 & a1 & Hc & _).
  apply Cut_spec in Hc.
  destruct (Cut_firstOccurrence _ _ _ _ H) as [Heq Hmin].
  specialize (Hmin b1 (a1 +:+ sep +:+ after)).
  rewrite Heq, Hc, !append_assoc in Hmin. specialize (Hmin eq_refl).
  rewrite !length_append in Hmin.
  destruct sep; [now contradiction Hsep | simpl in Hmin; lia].
Qed.

(** What an accepted line does to the three variables of the loop. *)
Lemma Parse_line_Ok (url_Parse : string -> URL + string)
    (st st' : ParseState) (line : string) :
  Parse_line url_Parse st line = Ok st' ->
  (isSkipped line = true /\ st' = st)
  \/ (isSkipped line = false /\ isIndented line = true
      /\ exists p header,
           pattern st = Some p /\ nameWithoutColon header
           /\ st' = {| hmap := hmap st; pattern := pattern st;
                       headers := headers st ++ [header] |})
  \/ (isPatternLine line = true
      /\ exists p,
           acceptedScheme p
           /\ st' = {| hmap := closeRule st; pattern := Some p;
                       headers := [] |}).
Proof.
  unfold Parse_line, isPatternLine, closeRule.
  change (String.eqb (strings.TrimSpace line) ""
          || firstByteIs (strings.TrimSpace line) "#") with (isSkipped line).
  change (firstByteIs line (ascii_of_nat 9) || firstByteIs line " ")
    with (isIndented line).
  destruct (isSkipped line) eqn:Hskip.
  { intros H. injection H as <-. now left. }
  destruct (isIndented line) eqn:Hind.
  - intros H. right. left. split; [reflexivity | split; [reflexivity |]].
    destruct (pattern st) as [p|]; [| discriminate].
    destruct (firstByteIs (strings.TrimSpace line) "!").
    + injection H as <-. eexists p, _. split; [reflexivity |].
      split; [| reflexivity]. now left.
    + unfold strings.SplitN2 in H.
      destruct (strings.Cut (strings.TrimSpace line) ":")
        as [[before after]|] eqn:C; [| discriminate].
      injection H as <-. eexists p, _. split; [reflexivity |].
      split; [| reflexivity]. right. simpl.
      apply (Cut_before_free (strings.TrimSpace line) ":" before after);
        [discriminate | exact C].
  - intros H. right. right. split; [reflexivity |].
    match type of H with
    | match ?parsed with _ => _ end = _ => destruct parsed as [p|e]
    end; [| discriminate].
    destruct (negb (String.eqb (Scheme p) "")
              && negb (String.eqb (Scheme p) "https")) eqn:S;
      [discriminate |].
    injection H as <-. exists p. split; [| reflexivity].
    apply andb_false_iff in S as [S|S]; apply negb_false_iff in S;
      apply String.eqb_eq in S; [now left | now right].
Qed.

Lemma wellFormed_start :
  wellFormed {| hmap := []; pattern := None; headers := [] |}.
Proof. repeat split; [constructor | discriminate | constructor]. Qed.

Lemma wellFormed_Parse_line (url_Parse : string -> URL + string)
    (st st' : ParseState) (line : string) :
  wellFormed st -> Parse_line url_Parse st line = Ok st' -> wellFormed st'.
Proof.
  intros (Hmap & Hpat & Hhs) H.
  destruct (Parse_line_Ok _ _ _ _ H)
    as [[_ ->] | [(_ & _ & p & header & Hp & Hh & ->) | (_ & p & Hp & ->)]].
  - now repeat split.
  - repeat split; simpl; [exact Hmap | exact Hpat |].
    apply Forall_app. split; [exact Hhs | now constructor].
  - repeat split; simpl.
    + unfold closeRule. destruct (pattern st) as [q|] eqn:Q; [| exact Hmap].
      apply Forall_app. split; [exact Hmap |].
      constructor; [| constructor]. simpl. split; [now apply Hpat | exact Hhs].
    + intros q Hq. now injection Hq as <-.
    + constructor.
Qed.

Lemma wellFormed_Parse_loop (url_Parse : string -> URL + string)
    (lines : list string) (st st' : ParseState) :
  wellFormed st -> Parse_loop url_Parse st lines = Ok st' -> wellFormed st'.
Proof.
  revert st; induction lines as [|line rest IH]; intros st Hst H; simpl in H.
  - now injection H as <-.
  - destruct (Parse_line url_Parse st line) as [st1|e] eqn:L; [| discriminate].
    apply (IH st1); [| exact H]. now apply (wellFormed_Parse_line _ _ _ _ Hst L).
Qed.

Lemma wellFormed_closeRule (st : ParseState) :
  wellFormed st ->
  Forall (fun r => acceptedScheme (Pattern r)
                   /\ Forall nameWithoutColon (Headers r)) (closeRule st).
Proof.
  intros (Hmap & Hpat & Hhs). unfold closeRule.
  destruct (pattern st) as [q|] eqn:Q; [| exact Hmap].
  apply Forall_app. split; [exact Hmap |].
  constructor; [| constructor]. simpl. split; [now apply Hpat | exact Hhs].
Qed.

Lemma Parse_Ok (url_Parse : string -> URL + string) (in_ : Reader)
    (file : File) :
  Parse url_Parse in_ = Ok file ->
  exists st,
    Parse_loop url_Parse {| hmap := []; pattern := None; headers := [] |}
      (scanned in_) = Ok st
    /\ scanErr in_ = None /\ file = closeRule st.
Proof.
  unfold Parse, closeRule. intros H.
  destruct (Parse_loop _ _ _) as [st|e]; [| discriminate].
  destruct (scanErr in_); [discriminate |].
  exists st. repeat split. destruct (pattern st); now injection H as <-.
Qed.

(** X13.  Every rule of a file that [Parse] returns has a pattern
    without a scheme or with the scheme [https], whatever [url.Parse]
    makes of the pattern lines. *)
Theorem parsed_schemes_are_https_or_none
    (url_Parse : string -> URL + string) (in_ : Reader) (file : File) :
  Parse url_Parse in_ = Ok file ->
  Forall (fun r => Scheme (Pattern r) = EmptyString
                   \/ Scheme (Pattern r) = "https"%string) file.
Proof.
  intros H. destruct (Parse_Ok _ _ _ H) as (st & Hloop & _ & ->).
  assert (W : wellFormed st).
  { apply (wellFormed_Parse_loop _ _ _ _ wellFormed_start Hloop). }
  eapply Forall_impl; [exact (wellFormed_closeRule st W) |].
  intros r [Hs _]. exact Hs.
Qed.

Lemma parsed_schemes_are_https_or_none_witness :
  Forall (fun r => Scheme (Pattern r) = EmptyString
                   \/ Scheme (Pattern r) = "https"%string)
    [ {| Pattern := withHost portURL "myproject.pages.dev"; Headers := [] |};
      {| Pattern := withHost portURL "example.com";
         Headers := [hdr "x-a" "b"] |} ].
Proof.
  apply (parsed_schemes_are_https_or_none (fun _ => inl portURL)
           (mkReader ["https://myproject.pages.dev/*";
                      "https://example.com/"; "  x-a: b"]%string None)).
  reflexivity.
Defined.

(** X14.  A header that is not a detach directive has, in every file
    that [Parse] returns, a name without a colon: the name of a header
    line ends at its first colon. *)
Theorem parsed_header_names_have_no_colon
    (url_Parse : string -> URL + string) (in_ : Reader) (file : File) :
  Parse url_Parse in_ = Ok file ->
  Forall (fun r =>
            Forall (fun header =>
                      Detach header = true
                      \/ strings.Contains (Name header) ":" = false)
              (Headers r)) file.
Proof.
  intros H. destruct (Parse_Ok _ _ _ H) as (st & Hloop & _ & ->).
  assert (W : wellFormed st).
  { apply (wellFormed_Parse_loop _ _ _ _ wellFormed_start Hloop). }
  eapply Forall_impl; [exact (wellFormed_closeRule st W) |].
  intros r [_ Hh]. exact Hh.
Qed.

Lemma parsed_header_names_have_no_colon_witness :
  Forall (fun r =>
            Forall (fun header =>
                      Detach header = true
                      \/ strings.Contains (Name header) ":" = false)
              (Headers r))
    [pathRule "/a" [hdr "x-a" "b: c"; detach "x: y"]].
Proof.
  apply (parsed_header_names_have_no_colon pathOnly
           (mkReader ["/a"; "  x-a: b: c"; "  ! x: y"]%string None)).
  reflexivity.
Defined.

Lemma Parse_loop_counts_patterns (url_Parse : string -> URL + string)
    (lines : list string) (st st' : ParseState) :
  Parse_loop url_Parse st lines = Ok st' ->
  length (closeRule st')
  = length (closeRule st) + length (List.filter isPatternLine lines).
Proof.
  revert st; induction lines as [|line rest IH]; intros st H; simpl in H.
  - injection H as <-. simpl. lia.
  - destruct (Parse_line url_Parse st line) as [st1|e] eqn:L; [| discriminate].
    rewrite (IH st1 H). simpl. unfold isPatternLine at 2.
    destruct (Parse_line_Ok _ _ _ _ L)
      as [[Hs ->] | [(Hs & Hi & p & header & Hp & _ & ->) | (Hpl & p & _ & ->)]].
    + rewrite Hs. simpl. lia.
    + rewrite Hs, Hi. unfold closeRule. simpl. rewrite Hp.
      rewrite !length_app. simpl. lia.
    + unfold isPatternLine in Hpl. rewrite Hpl.
      unfold closeRule at 1. cbn [pattern hmap headers].
      rewrite length_app. simpl. lia.
Qed.

(** X15.  A file that [Parse] returns has one rule for every pattern
    line of the input, every line that is neither skipped nor indented:
    a pattern line without header lines gives a rule, and the last rule
    needs no line behind it. *)
Theorem one_rule_per_pattern_line
    (url_Parse : string -> URL + string) (in_ : Reader) (file : File) :
  Parse url_Parse in_ = Ok file ->
  length file = length (List.filter isPatternLine (scanned in_)).
Proof.
  intros H. destruct (Parse_Ok _ _ _ H) as (st & Hloop & _ & ->).
  now rewrite (Parse_loop_counts_patterns _ _ _ _ Hloop).
Qed.

Lemma one_rule_per_pattern_line_witness :
  length [pathRule "/a" []; pathRule "/b" [hdr "x-b" "1"]; pathRule "/c" []]
  = length (List.filter isPatternLine
              ["# rules"; "/a"; "/b"; "  x-b: 1"; ""; "/c"]%string).
Proof.
  apply (one_rule_per_pattern_line pathOnly
           (mkReader ["# rules"; "/a"; "/b"; "  x-b: 1"; ""; "/c"]%string None)).
  reflexivity.
Defined.

Lemma Parse_line_skipped (url_Parse : string -> URL + string)
    (st : ParseState) (line : string) :
  isSkipped line = true -> Parse_line url_Parse st line = Ok st.
Proof. unfold isSkipped, Parse_line. now intros ->. Qed.

Lemma Parse_loop_skipped (url_Parse : string -> URL + string)
    (st : ParseState) (lines : list string) :
  forallb isSkipped lines = true -> Parse_loop url_Parse st lines = Ok st.
Proof.
  induction lines as [|line rest IH]; intros H; [reflexivity |].
  simpl in H. apply andb_true_iff in H as [Hl Hr].
  simpl. rewrite (Parse_line_skipped _ _ _ Hl). now apply IH.
Qed.

(** X16.  When the first line that is not skipped is indented, [Parse]
    returns the header-without-pattern error for that line, whatever
    follows it and whatever the scanner reports at the end. *)
Theorem header_before_any_pattern_fails
    (url_Parse : string -> URL + string)
    (pre post : list string) (line : string) (err : option string) :
  forallb isSkipped pre = true ->
  isSkipped line = false ->
  isIndented line = true ->
  Parse url_Parse (mkReader (pre ++ line :: post) err)
  = Err (HeaderWithoutPattern line).
Proof.
  intros Hpre Hs Hi. unfold Parse. simpl scanned.
  rewrite Parse_loop_app, (Parse_loop_skipped _ _ _ Hpre). simpl.
  unfold Parse_line. unfold isSkipped in Hs. unfold isIndented in Hi.
  now rewrite Hs, Hi.
Qed.

Lemma header_before_any_pattern_fails_witness :
  Parse pathOnly
    (mkReader ["# comment"; ""; "  x-a: b"; "/a"]%string (Some "late"%string))
  = Err (HeaderWithoutPattern "  x-a: b").
Proof.
  apply (header_before_any_pattern_fails pathOnly
           ["# comment"; ""]%string ["/a"%string] "  x-a: b"
           (Some "late"%string)); reflexivity.
Defined.

(** X17.  An indented line under an open rule whose trimmed text is a
    name without a colon, a colon and a rest is taken as the header with
    that name and the trimmed rest as value: the line is split at its
    first colon, so that the value keeps the colons behind it, and an
    empty name is accepted. *)
Theorem header_line_splits_at_first_colon
    (url_Parse : string -> URL + string) (st : ParseState) (p : URL)
    (line name rest : string) :
  pattern st = Some p ->
  isIndented line = true ->
  strings.TrimSpace line = name +:+ String ":" rest ->
  strings.Contains name ":" = false ->
  firstByteIs (strings.TrimSpace line) "#" = false ->
  firstByteIs (strings.TrimSpace line) "!" = false ->
  Parse_line url_Parse st line
  = Ok {| hmap := hmap st; pattern := pattern st;
          headers := headers st
            ++ [ {| Name := name; Value := strings.TrimSpace rest;
                    Detach := false |} ] |}.
Proof.
  intros Hp Hi Htrim Hname Hhash Hbang. unfold Parse_line.
  unfold isIndented in Hi. rewrite Hi, Hhash, Hbang, Hp.
  rewrite Htrim. unfold strings.SplitN2.
  rewrite (Cut_byte name rest ":" Hname).
  now destruct name.
Qed.

Lemma header_line_splits_at_first_colon_witness :
  Parse_line pathOnly openRule "  Link: <https://example.com/a>; rel=x "
  = Ok {| hmap := []; pattern := pattern openRule;
          headers := [hdr "Link" "<https://example.com/a>; rel=x"] |}
  /\ Parse_line pathOnly openRule "  : v"
     = Ok {| hmap := []; pattern := pattern openRule;
             headers := [hdr "" "v"] |}.
Proof.
  split.
  - apply (header_line_splits_at_first_colon pathOnly openRule
             (mkURL "" "" "/a" "" "" "")
             "  Link: <https://example.com/a>; rel=x "
             "Link" " <https://example.com/a>; rel=x"); reflexivity.
  - apply (header_line_splits_at_first_colon pathOnly openRule
             (mkURL "" "" "/a" "" "" "") "  : v" "" " v"); reflexivity.
Defined.

(** X18.  An indented line under an open rule that is not skipped, does
    not begin with [!] after trimming and has no colon is refused with
    the invalid-header error, and [Parse] returns that error whatever
    follows the line and whatever the scanner reports at the end. *)
Theorem header_line_without_colon_fails
    (url_Parse : string -> URL + string) (st : ParseState) (p : URL)
    (pre post : list string) (line : string) (err : option string) :
  Parse_loop url_Parse {| hmap := []; pattern := None; headers := [] |} pre
    = Ok st ->
  pattern st = Some p ->
  isSkipped line = false ->
  isIndented line = true ->
  firstByteIs (strings.TrimSpace line) "!" = false ->
  strings.Contains (strings.TrimSpace line) ":" = false ->
  Parse_line url_Parse st line = Err (InvalidHeader line)
  /\ Parse url_Parse (mkReader (pre ++ line :: post) err)
     = Err (InvalidHeader line).
Proof.
  intros Hpre Hp Hs Hi Hbang Hcolon.
  assert (L : Parse_line url_Parse st line = Err (InvalidHeader line)).
  { unfold Parse_line. unfold isSkipped in Hs. unfold isIndented in Hi.
    rewrite Hs, Hi, Hp, Hbang. unfold strings.SplitN2.
    now rewrite (Cut_None _ _ Hcolon). }
  split; [exact L |]. unfold Parse. simpl scanned.
  rewrite Parse_loop_app, Hpre. simpl. now rewrite L.
Qed.

Lemma header_line_without_colon_fails_witness :
  Parse pathOnly (mkReader ["/a"; "  x-a: b"; "  x-c c"; "/d"]%string None)
  = Err (InvalidHeader "  x-c c").
Proof.
  apply (header_line_without_colon_fails pathOnly
           {| hmap := []; pattern := pattern openRule;
              headers := [hdr "x-a" "b"] |}
           (mkURL "" "" "/a" "" "" "")
           ["/a"; "  x-a: b"]%string ["/d"%string] "  x-c c" None);
    reflexivity.
Defined.

(** X19.  An input of skipped lines only, the empty input included,
    gives the empty file and no error, unless the scanner reports an
    error, which [Parse] then returns. *)
Theorem only_skipped_lines_give_empty_file
    (url_Parse : string -> URL + string)
    (lines : list string) (err : option string) :
  forallb isSkipped lines = true ->
  Parse url_Parse (mkReader lines err)
  = match err with
    | Some msg => Err (ScannerError msg)
    | None => Ok []
    end.
Proof.
  intros H. unfold Parse. simpl scanned. simpl scanErr.
  now rewrite (Parse_loop_skipped _ _ _ H).
Qed.

Lemma only_skipped_lines_give_empty_file_witness :
  Parse pathOnly (mkReader ["# title"; ""; "   "; "  # note"]%string None)
  = Ok [].
Proof.
  apply (only_skipped_lines_give_empty_file pathOnly
           ["# title"; ""; "   "; "  # note"]%string None).
  reflexivity.
Defined.

Lemma all_append (f : ascii -> bool) (a b : string) :
  regexp.all f (a +:+ b) = regexp.all f a && regexp.all f b.
Proof.
  induction a as [|c a IH]; simpl; [reflexivity |].
  now rewrite IH, andb_assoc.
Qed.

Lemma all_implies (f g : ascii -> bool) (s : string) :
  (forall c, f c = true -> g c = true) ->
  regexp.all f s = true -> regexp.all g s = true.
Proof.
  intros Hfg. induction s as [|c s IH]; simpl; [reflexivity |].
  intros H. apply andb_true_iff in H as [Hc Hs].
  now rewrite (Hfg c Hc), (IH Hs).
Qed.

Lemma isDigit_hostByte (c : ascii) :
  regexp.isDigit c = true -> hostByte c = true.
Proof.
  destruct c as [[] [] [] [] [] [] [] []]; intros H;
    solve [reflexivity | discriminate H].
Qed.

Lemma lazyUpToSlash_host (host rest : string) :
  regexp.all hostByte host = true ->
  regexp.lazyUpToSlash (host +:+ String "/" rest) = Some host.
Proof.
  induction host as [|c host IH]; intros H; [reflexivity |].
  simpl in H. apply andb_true_iff in H as [Hc Hh].
  unfold hostByte in Hc. apply andb_true_iff in Hc as [H1 H2].
  apply negb_true_iff in H1, H2.
  cbn [String.append regexp.lazyUpToSlash]. rewrite H1, H2, (IH Hh).
  reflexivity.
Qed.

Lemma hostPortMatcher_port (host port : string) :
  port <> EmptyString ->
  regexp.all regexp.isDigit port = true ->
  regexp.hostPortMatcher_MatchString (host +:+ String ":" port) = true.
Proof.
  intros Hne Hd. induction host as [|c host IH].
  - simpl. rewrite Hd. destruct port; [now contradiction Hne | reflexivity].
  - cbn [String.append regexp.hostPortMatcher_MatchString].
    rewrite IH. apply orb_true_r.
Qed.

(** X20.  A pattern line that reads [http://] or [https://], a host, a
    colon, one or more digits, a [/] and any rest is refused with the
    invalid-port error, in every state of the loop and whatever
    [url.Parse] would make of it.  The port is tested before the scheme:
    with [http://] too the error is the invalid-port error. *)
Theorem pattern_line_with_port_fails
    (url_Parse : string -> URL + string) (st : ParseState)
    (line scheme host port rest : string) :
  isIndented line = false ->
  scheme = "http"%string \/ scheme = "https"%string ->
  regexp.all hostByte host = true ->
  port <> EmptyString ->
  regexp.all regexp.isDigit port = true ->
  strings.TrimSpace line
    = scheme +:+ "://" +:+ host +:+ String ":" (port +:+ String "/" rest) ->
  Parse_line url_Parse st line = Err (InvalidPort (strings.TrimSpace line)).
Proof.
  intros Hi Hscheme Hhost Hne Hport Htrim.
  unfold isIndented in Hi. apply orb_false_iff in Hi as [Htab Hsp].
  apply (Parse_line_rejects_port url_Parse st line (host +:+ String ":" port));
    [| now apply hostPortMatcher_port | exact Htab | exact Hsp].
  rewrite Htrim.
  assert (E : host +:+ String ":" (port +:+ String "/" rest)
              = (host +:+ String ":" port) +:+ String "/" rest)
    by (now rewrite append_assoc).
  assert (Hall : regexp.all hostByte (host +:+ String ":" port) = true).
  { rewrite all_append, Hhost. simpl.
    now rewrite (all_implies _ _ _ isDigit_hostByte Hport). }
  unfold regexp.absoluteUrlMatcher_FindStringSubmatch.
  destruct Hscheme as [-> | ->]; simpl; rewrite E;
    now apply lazyUpToSlash_host.
Qed.

Lemma pattern_line_with_port_fails_witness :
  Parse_line pathOnly openRule "http://example.com:8080/docs/*"
  = Err (InvalidPort "http://example.com:8080/docs/*").
Proof.
  apply (pattern_line_with_port_fails pathOnly openRule
           "http://example.com:8080/docs/*" "http" "example.com" "8080"
           "docs/*");
    [reflexivity | now left | reflexivity | discriminate | reflexivity
    | reflexivity].
Defined.
